(** * zenith-cv: localized content lookup and date formatting

    A shallow embedding of [src/utils/get-content.ts] and of the date
    formatter ([formatDate]), together with the parts of the JavaScript
    runtime they rest on: the ECMAScript [Date] arithmetic (ECMA-262,
    section "Date Objects"), [Date] objects living in a mutable heap, and
    promise-returning functions as computations that either complete
    normally or throw. *)

From Stdlib Require Import ZArith Lia List Bool Ascii String DecimalString.
From stdpp Require Import base option gmap strings.

(** ** Completions and effectful computations *)

Module Js.

(** The exceptions that occur in the embedded code. *)
Inductive Exception : Type :=
| Error (message : string)        (* [new Error(message)] *)
| RangeError (message : string)   (* raised by the formatting backend *)
| TypeError (message : string)    (* a method applied to a non-object *)
| ConfigurationError.             (* render context not initialised *)

(** How the evaluation of an expression ends: with a value or a throw.
    For an [async] function this is the settlement of its promise. *)
Inductive Completion (A : Type) : Type :=
| Normal (value : A)
| Throw (exn : Exception).
Arguments Normal {A} value.
Arguments Throw {A} exn.

(** A computation over an ambient mutable state [S].  The state survives
    a throw, as the JavaScript heap does. *)
Definition Eff (S A : Type) : Type := S -> Completion A * S.

Definition ret {S A} (a : A) : Eff S A := fun s => (Normal a, s).

Definition throw {S A} (e : Exception) : Eff S A := fun s => (Throw e, s).

Definition bind {S A B} (m : Eff S A) (k : A -> Eff S B) : Eff S B :=
  fun s =>
    match m s with
    | (Normal a, s') => k a s'
    | (Throw e, s') => (Throw e, s')
    end.

(** A computation that does not touch the state. *)
Definition lift {S A} (c : Completion A) : Eff S A := fun s => (c, s).

Definition result {S A} (m : Eff S A) (s : S) : Completion A := fst (m s).
Definition final {S A} (m : Eff S A) (s : S) : S := snd (m s).

End Js.

Declare Scope js_scope.
Delimit Scope js_scope with js.
Notation "'let*' x ':=' m 'in' k" :=
  (Js.bind m (fun x => k))
  (at level 10, x name, m at level 100, k at level 200) : js_scope.

(** ** ECMAScript time values and date arithmetic *)

Module EcmaDate.
Local Open Scope Z_scope.

(** The Numbers that occur here are integers or NaN. *)
Definition Number : Type := option Z.
Definition NaN : Number := None.

(** [x === 0] on Numbers: false for NaN. *)
Definition strictEqZero (x : Number) : bool :=
  match x with
  | Some v => v =? 0
  | None => false
  end.

Definition HoursPerDay : Z := 24.
Definition MinutesPerHour : Z := 60.
Definition SecondsPerMinute : Z := 60.
Definition msPerSecond : Z := 1000.
Definition msPerMinute : Z := 60000.
Definition msPerHour : Z := 3600000.
Definition msPerDay : Z := 86400000.

(** Day(t) = floor(t / msPerDay); [Z.div] rounds towards minus infinity
    for a positive divisor. *)
Definition Day (t : Z) : Z := t / msPerDay.
Definition TimeWithinDay (t : Z) : Z := t mod msPerDay.

Definition DaysInYear (y : Z) : Z :=
  if negb (y mod 4 =? 0) then 365
  else if negb (y mod 100 =? 0) then 366
  else if negb (y mod 400 =? 0) then 365
  else 366.

Definition DayFromYear (y : Z) : Z :=
  365 * (y - 1970) + (y - 1969) / 4 - (y - 1901) / 100 + (y - 1601) / 400.

Definition TimeFromYear (y : Z) : Z := msPerDay * DayFromYear y.

(** YearFromTime(t) is "the largest integer y such that
    TimeFromYear(y) <= t".  It is computed from the mean length of a
    Gregorian year (146097 days in 400 years), which is off by at most one
    year, and then adjusted. *)
Definition YearFromTime (t : Z) : Z :=
  let y0 := 1970 + (400 * Day t) / 146097 in
  if t <? TimeFromYear y0 then y0 - 1
  else if TimeFromYear (y0 + 1) <=? t then y0 + 1
  else y0.

Definition InLeapYear (t : Z) : Z :=
  if DaysInYear (YearFromTime t) =? 366 then 1 else 0.

Definition DayWithinYear (t : Z) : Z := Day t - DayFromYear (YearFromTime t).

Definition MonthFromTime (t : Z) : Z :=
  let d := DayWithinYear t in
  let l := InLeapYear t in
  if d <? 31 then 0
  else if d <? 59 + l then 1
  else if d <? 90 + l then 2
  else if d <? 120 + l then 3
  else if d <? 151 + l then 4
  else if d <? 181 + l then 5
  else if d <? 212 + l then 6
  else if d <? 243 + l then 7
  else if d <? 273 + l then 8
  else if d <? 304 + l then 9
  else if d <? 334 + l then 10
  else 11.

Definition DateFromTime (t : Z) : Z :=
  let d := DayWithinYear t in
  let l := InLeapYear t in
  match MonthFromTime t with
  | 0 => d + 1
  | 1 => d - 30
  | 2 => d - 58 - l
  | 3 => d - 89 - l
  | 4 => d - 119 - l
  | 5 => d - 150 - l
  | 6 => d - 180 - l
  | 7 => d - 211 - l
  | 8 => d - 242 - l
  | 9 => d - 272 - l
  | 10 => d - 303 - l
  | _ => d - 333 - l
  end.

Definition HourFromTime (t : Z) : Z := (t / msPerHour) mod HoursPerDay.
Definition MinFromTime (t : Z) : Z := (t / msPerMinute) mod MinutesPerHour.
Definition SecFromTime (t : Z) : Z := (t / msPerSecond) mod SecondsPerMinute.
Definition msFromTime (t : Z) : Z := t mod msPerSecond.

(** The host time zone, as a fixed offset of local time from UTC in
    milliseconds (LocalTZA).  Offsets are shorter than a day. *)
Definition LocalTZA : Type := Z.
Definition validTZA (tza : LocalTZA) : Prop := - msPerDay < tza < msPerDay.

Definition LocalTime (tza : LocalTZA) (t : Z) : Z := t + tza.
Definition UTC (tza : LocalTZA) (t : Z) : Z := t - tza.

Definition MakeTime (hour min sec ms : Z) : Z :=
  hour * msPerHour + min * msPerMinute + sec * msPerSecond + ms.

(** Number of days from the start of year [y] to the start of its month
    [mn] (0 to 11). *)
Definition DaysBeforeMonth (y mn : Z) : Z :=
  let l := if DaysInYear y =? 366 then 1 else 0 in
  match mn with
  | 0 => 0
  | 1 => 31
  | 2 => 59 + l
  | 3 => 90 + l
  | 4 => 120 + l
  | 5 => 151 + l
  | 6 => 181 + l
  | 7 => 212 + l
  | 8 => 243 + l
  | 9 => 273 + l
  | 10 => 304 + l
  | _ => 334 + l
  end.

(** MakeDay: "find a time value t such that YearFromTime(t) is ym,
    MonthFromTime(t) is mn and DateFromTime(t) is 1; return
    Day(t) + dt - 1".  That [t] is the first day of the month. *)
Definition MakeDay (year month date : Z) : Z :=
  let ym := year + month / 12 in
  let mn := month mod 12 in
  let t := TimeFromYear ym + DaysBeforeMonth ym mn * msPerDay in
  Day t + date - 1.

Definition MakeDate (day time : Z) : Z := day * msPerDay + time.

Definition maxTime : Z := 8640000000000000.

Definition TimeClip (time : Z) : Number :=
  if maxTime <? Z.abs time then NaN else Some time.

(** MakeFullYear: a year from 0 to 99 given to the [Date] constructor
    means 1900 + year. *)
Definition MakeFullYear (year : Z) : Z :=
  if (0 <=? year) && (year <=? 99) then 1900 + year else year.

(** The time value of [new Date(year, month, date)]: the given fields are
    read as local time, at 00:00:00.000. *)
Definition construct (tza : LocalTZA) (year month date : Number) : Number :=
  match year, month, date with
  | Some y, Some m, Some dt =>
      let yr := MakeFullYear y in
      let finalDate := MakeDate (MakeDay yr m dt) (MakeTime 0 0 0 0) in
      TimeClip (UTC tza finalDate)
  | _, _, _ => NaN
  end.

(** [Date.UTC(year, month, date, hours, minutes, seconds, ms)]. *)
Definition Date_UTC (year month date hours minutes seconds ms : Z) : Number :=
  let yr := MakeFullYear year in
  TimeClip (MakeDate (MakeDay yr month date) (MakeTime hours minutes seconds ms)).

End EcmaDate.

(** ** [Date] objects

    A [Date] is a mutable object holding a time value; the program handles
    references to such objects.  [new Date(...)] allocates a fresh one. *)

Module DateObject.
Import Js EcmaDate.
Local Open Scope js_scope.

Definition ref : Type := positive.
Abbreviation Heap := (gmap positive Number).

(** thisTimeValue: the time value of the object, a TypeError when the
    reference is not a [Date]. *)
Definition thisTimeValue (date : ref) : Eff Heap Number :=
  fun h =>
    match h !! date with
    | Some tv => (Normal tv, h)
    | None => (Throw (TypeError "this is not a Date object."), h)
    end.

Definition getUTCFullYear (date : ref) : Eff Heap Number :=
  let* t := thisTimeValue date in ret (YearFromTime <$> t).
Definition getUTCMonth (date : ref) : Eff Heap Number :=
  let* t := thisTimeValue date in ret (MonthFromTime <$> t).
Definition getUTCDate (date : ref) : Eff Heap Number :=
  let* t := thisTimeValue date in ret (DateFromTime <$> t).
Definition getUTCHours (date : ref) : Eff Heap Number :=
  let* t := thisTimeValue date in ret (HourFromTime <$> t).
Definition getUTCMinutes (date : ref) : Eff Heap Number :=
  let* t := thisTimeValue date in ret (MinFromTime <$> t).
Definition getUTCSeconds (date : ref) : Eff Heap Number :=
  let* t := thisTimeValue date in ret (SecFromTime <$> t).
Definition getUTCMilliseconds (date : ref) : Eff Heap Number :=
  let* t := thisTimeValue date in ret (msFromTime <$> t).

(** [new Date(year, month, date)] under the host offset [tza]. *)
Definition newDate (tza : LocalTZA) (year month date : Number) : Eff Heap ref :=
  fun h =>
    let r := fresh (dom h) in
    (Normal r, <[r := construct tza year month date]> h).

(** The fields of a time value in local time, as [getFullYear],
    [getMonth], [getDate], [getHours], [getMinutes], [getSeconds] read
    them. *)
Definition localFullYear (tza : LocalTZA) (t : Z) : Z := YearFromTime (LocalTime tza t).
Definition localMonth (tza : LocalTZA) (t : Z) : Z := MonthFromTime (LocalTime tza t).
Definition localDate (tza : LocalTZA) (t : Z) : Z := DateFromTime (LocalTime tza t).
Definition localHours (tza : LocalTZA) (t : Z) : Z := HourFromTime (LocalTime tza t).
Definition localMinutes (tza : LocalTZA) (t : Z) : Z := MinFromTime (LocalTime tza t).
Definition localSeconds (tza : LocalTZA) (t : Z) : Z := SecFromTime (LocalTime tza t).
Definition localMilliseconds (tza : LocalTZA) (t : Z) : Z := msFromTime (LocalTime tza t).

End DateObject.

(** ** The formatting backend (date-fns)

    [format(date, pattern, { locale })] reads the date through its local-time
    getters and does not modify it.  [formatDate] is stated over any such
    backend; [formatNumeric] describes date-fns on the patterns built from
    its numeric tokens. *)

Module DateFns.
Import Js EcmaDate DateObject.

(** A date-fns locale: its code, and its table of month names by month
    index (0 to 11) and width. *)
Record Locale : Type := {
  code : string;
  localizeMonth : Z -> nat -> string
}.

Definition Backend : Type := LocalTZA -> Number -> string -> Locale -> Completion string.

Definition digits (n : Z) : string :=
  NilZero.string_of_uint (N.to_uint (Z.to_N n)).

Fixpoint zeros (n : nat) : string :=
  match n with
  | O => EmptyString
  | S k => String "0" (zeros k)
  end.

(** [output.padStart(targetLength, '0')] *)
Definition padStart (s : string) (targetLength : nat) : string :=
  zeros (targetLength - String.length s) +:+ s.

Definition addLeadingZeros (number : Z) (targetLength : nat) : string :=
  let sign := if (number <? 0)%Z then "-" else EmptyString in
  sign +:+ padStart (digits (Z.abs number)) targetLength.

(** The pattern is cut into runs of one repeated character. *)
Fixpoint tokens (pattern : string) : list (ascii * nat) :=
  match pattern with
  | EmptyString => []
  | String c rest =>
      match tokens rest with
      | (c', n) :: ts =>
          if Ascii.eqb c c' then (c, S n) :: ts else (c, 1%nat) :: (c', n) :: ts
      | [] => [(c, 1%nat)]
      end
  end.

Definition isLatinLetter (c : ascii) : bool :=
  let n := nat_of_ascii c in
  ((65 <=? n)%nat && (n <=? 90)%nat) || ((97 <=? n)%nat && (n <=? 122)%nat).

Fixpoint repeatChar (c : ascii) (n : nat) : string :=
  match n with
  | O => EmptyString
  | S k => String c (repeatChar c k)
  end.

(** One token at the local time [t].  The letters y, M, d, H, m and s are
    the numeric formatters of date-fns; a character that is not a letter
    stands for itself.  Every other letter, and the quote that starts
    escaped text, is outside this fragment and is rejected. *)
Definition formatToken (tza : LocalTZA) (t : Z) (locale : Locale)
    (token : ascii * nat) : Completion string :=
  let (c, len) := token in
  if Ascii.eqb c "y" then
    let signedYear := localFullYear tza t in
    let year := if (0 <? signedYear)%Z then signedYear else (1 - signedYear)%Z in
    Normal (addLeadingZeros (if (len =? 2)%nat then (year mod 100)%Z else year) len)
  else if Ascii.eqb c "M" then
    let month := localMonth tza t in
    match len with
    | 1%nat => Normal (digits (month + 1))
    | 2%nat => Normal (addLeadingZeros (month + 1) 2)
    | _ => Normal (localizeMonth locale month len)
    end
  else if Ascii.eqb c "d" then Normal (addLeadingZeros (localDate tza t) len)
  else if Ascii.eqb c "H" then Normal (addLeadingZeros (localHours tza t) len)
  else if Ascii.eqb c "m" then Normal (addLeadingZeros (localMinutes tza t) len)
  else if Ascii.eqb c "s" then Normal (addLeadingZeros (localSeconds tza t) len)
  else if isLatinLetter c || Ascii.eqb c "'" then
    Throw (RangeError "Format string contains a character outside the numeric tokens")
  else Normal (repeatChar c len).

Fixpoint formatTokens (tza : LocalTZA) (t : Z) (locale : Locale)
    (ts : list (ascii * nat)) : Completion string :=
  match ts with
  | [] => Normal EmptyString
  | tok :: rest =>
      match formatToken tza t locale tok with
      | Normal s =>
          match formatTokens tza t locale rest with
          | Normal s' => Normal (s +:+ s')
          | Throw e => Throw e
          end
      | Throw e => Throw e
      end
  end.

(** An invalid date is refused before the pattern is looked at. *)
Definition formatNumeric : Backend :=
  fun tza tv pattern locale =>
    match tv with
    | None => Throw (RangeError "Invalid time value")
    | Some t => formatTokens tza t locale (tokens pattern)
    end.

End DateFns.

(** ** The render context *)

Module Context.
Import Js DateFns.

Record RenderContext : Type := {
  locale : Locale;
  dateFormat : string;
  i18n_t : string -> string
}.

(** The render handle ([AstroGlobal]): it carries the context once the
    rendering pipeline has attached it. *)
Record AstroGlobal : Type := {
  globalContext : option RenderContext
}.

(** Modelled from the spec: [getGlobalContext] of
    [src/utils/get-global-context.ts], which is not among the sources.
    It returns the context of the render handle and fails with a
    configuration error when none has been initialised. *)
Definition getGlobalContext (astro : AstroGlobal) : Completion RenderContext :=
  match globalContext astro with
  | Some context => Normal context
  | None => Throw ConfigurationError
  end.

End Context.

(** ** The date formatter: [isMidnightUtc], [normalizeDateOnlyToLocal], [formatDate] *)

Module FormatDate.
Import Js EcmaDate DateObject DateFns Context.
Local Open Scope js_scope.

Section Host.
(** The host time zone and the formatting backend. *)
Variable tza : LocalTZA.
Variable format : Backend.

(** [a && b && c && d] evaluates left to right and stops at the first
    false operand. *)
Definition isMidnightUtc (date : ref) : Eff Heap bool :=
  let* h := getUTCHours date in
  if negb (strictEqZero h) then ret false else
  let* m := getUTCMinutes date in
  if negb (strictEqZero m) then ret false else
  let* s := getUTCSeconds date in
  if negb (strictEqZero s) then ret false else
  let* ms := getUTCMilliseconds date in
  ret (strictEqZero ms).

Definition normalizeDateOnlyToLocal (date : ref) : Eff Heap ref :=
  let* midnight := isMidnightUtc date in
  if negb midnight then ret date else
  let* year := getUTCFullYear date in
  let* month := getUTCMonth date in
  let* day := getUTCDate date in
  newDate tza year month day.

(** The call of the backend on a [Date] object: it reads the time
    value. *)
Definition callFormat (date : ref) (pattern : string) (locale : Locale)
    : Eff Heap string :=
  let* tv := thisTimeValue date in
  lift (format tza tv pattern locale).

Definition formatDate (date : ref) (astro : AstroGlobal) : Eff Heap string :=
  let* context := lift (getGlobalContext astro) in
  let* normalized := normalizeDateOnlyToLocal date in
  callFormat normalized (dateFormat context) (Context.locale context).

End Host.

End FormatDate.

(** ** What the date formatter computes on time values

    The readings, through the heap, of [isMidnightUtc] and
    [normalizeDateOnlyToLocal]: they are derived from the code above, to
    which lemmas [isMidnightUtc_run] and [normalize_run] relate them. *)

Module TimeValues.
Import EcmaDate.

Definition midnightUtc (tv : Number) : bool :=
  strictEqZero (HourFromTime <$> tv) && strictEqZero (MinFromTime <$> tv)
  && strictEqZero (SecFromTime <$> tv) && strictEqZero (msFromTime <$> tv).

Definition normalized (tza : LocalTZA) (tv : Number) : Number :=
  if negb (midnightUtc tv) then tv
  else construct tza (YearFromTime <$> tv) (MonthFromTime <$> tv) (DateFromTime <$> tv).

End TimeValues.

(** ** The content collections (astro:content) *)

Module Content.
Import Js.

(** A content record: the collection it belongs to, the slug it is looked
    up by, and its document, which is opaque here. *)
Record Entry : Type := {
  collection : string;
  slug : string;
  body : string
}.

(** The content store: the records of all collections. *)
Definition Store : Type := list Entry.

Definition hasKey (name key : string) (e : Entry) : bool :=
  String.eqb (collection e) name && String.eqb (slug e) key.

(** Modelled from the spec: [getEntry] of the content collections store,
    which the framework supplies.  [getEntry(collection, slug)] answers the
    record of that collection with exactly that slug, or [undefined]. *)
Definition getEntry (store : Store) (name key : string) : option Entry :=
  List.find (hasKey name key) store.

(** The lookups made so far, in order: collection name and slug. *)
Definition Query : Type := (string * string)%type.
Definition Trace : Type := list Query.

(** [await getEntry(collection, slug)]: the lookup is recorded. *)
Definition awaitGetEntry (store : Store) (name key : string)
    : Eff Trace (option Entry) :=
  fun trace => (Normal (getEntry store name key), trace ++ [(name, key)]).

End Content.

(** ** [src/utils/get-content.ts] *)

Module GetContent.
Import Js DateFns Context Content.
Local Open Scope js_scope.

Inductive LocalizableCollection : Type :=
| skills | jobs | achievements | education | favorites | interests.

(** The string each member of the union type is. *)
Definition collectionName (c : LocalizableCollection) : string :=
  match c with
  | skills => "skills"
  | jobs => "jobs"
  | achievements => "achievements"
  | education => "education"
  | favorites => "favorites"
  | interests => "interests"
  end.

Definition quote : string := String (ascii_of_nat 34) EmptyString.

(** The template literal of the thrown error. *)
Definition notFoundMessage (name id localeCode : string) : string :=
  "Content entry not found: collection=" +:+ quote +:+ name +:+ quote
  +:+ ", id=" +:+ quote +:+ id +:+ quote
  +:+ ", locale=" +:+ quote +:+ localeCode +:+ quote.

Section Store.
Variable store : Store.

Definition getLocalizedEntry (astro : AstroGlobal)
    (collection : LocalizableCollection) (id : string) : Eff Trace Entry :=
  let* context := lift (getGlobalContext astro) in
  let fallback : Eff Trace Entry :=
    let baseSlug := id in
    let* baseEntry := awaitGetEntry store (collectionName collection) baseSlug in
    match baseEntry with
    | None =>
        throw (Error (notFoundMessage (collectionName collection) id
                        (code (locale context))))
    | Some entry => ret entry
    end in
  if String.eqb (code (locale context)) "es" then
    let localizedSlug := id +:+ "-es" in
    let* esEntry := awaitGetEntry store (collectionName collection) localizedSlug in
    match esEntry with
    | Some entry => ret entry
    | None => fallback
    end
  else fallback.

Definition getLocalizedSkill (astro : AstroGlobal) (id : string) : Eff Trace Entry :=
  getLocalizedEntry astro skills id.

Definition getLocalizedJob (astro : AstroGlobal) (id : string) : Eff Trace Entry :=
  getLocalizedEntry astro jobs id.

Definition getLocalizedAchievement (astro : AstroGlobal) (id : string) : Eff Trace Entry :=
  getLocalizedEntry astro achievements id.

Definition getLocalizedEducation (astro : AstroGlobal) (id : string) : Eff Trace Entry :=
  getLocalizedEntry astro education id.

Definition getLocalizedFavorite (astro : AstroGlobal) (id : string) : Eff Trace Entry :=
  getLocalizedEntry astro favorites id.

Definition getLocalizedInterest (astro : AstroGlobal) (id : string) : Eff Trace Entry :=
  getLocalizedEntry astro interests id.

End Store.

(** [getTranslation]: the translation function of the render context. *)
Definition getTranslation (astro : AstroGlobal) : Completion (string -> string) :=
  match getGlobalContext astro with
  | Normal context => Normal (i18n_t context)
  | Throw e => Throw e
  end.

End GetContent.

(** ** Sample data *)

Module Samples.
Import EcmaDate DateFns Context Content.

Definition monthName (names : list string) (month : Z) (width : nat) : string :=
  nth (Z.to_nat month) names EmptyString.

Definition es : Locale := {|
  code := "es";
  localizeMonth := monthName
    ["enero"; "febrero"; "marzo"; "abril"; "mayo"; "junio"; "julio"; "agosto";
     "septiembre"; "octubre"; "noviembre"; "diciembre"]
|}.

Definition enUS : Locale := {|
  code := "en-US";
  localizeMonth := monthName
    ["January"; "February"; "March"; "April"; "May"; "June"; "July"; "August";
     "September"; "October"; "November"; "December"]
|}.

Definition contextOf (l : Locale) : RenderContext := {|
  locale := l;
  dateFormat := "dd/MM/yyyy";
  i18n_t := fun key => key
|}.

Definition astroOf (l : Locale) : AstroGlobal := {| globalContext := Some (contextOf l) |}.

(** UTC-5 and UTC+1, in milliseconds. *)
Definition newYork : LocalTZA := (-18000000)%Z.
Definition madrid : LocalTZA := 3600000%Z.

(** 2024-03-15T00:00:00.000Z, 2024-03-15T14:30:00.000Z and
    0050-03-15T00:00:00.000Z. *)
Definition day_2024_03_15 : Z := 1710460800000%Z.
Definition instant_2024_03_15 : Z := 1710513000000%Z.
Definition day_0050_03_15 : Z := (-60582988800000)%Z.

Definition entry (name key : string) : Entry :=
  {| collection := name; slug := key; body := "# " +:+ key |}.

Definition store : Store :=
  [ entry "skills" "typescript"; entry "skills" "typescript-es";
    entry "jobs" "senior-developer"; entry "interests" "photography-es" ].

End Samples.

(** ** Processes: environment variables, exit codes *)

Module Process.

(** How a function of a Node script ends: it returns, it throws, or the
    process is ended by [process.exit(code)], after which nothing runs. *)
Inductive Outcome (A : Type) : Type :=
| Returned (value : A)
| Thrown (exn : Js.Exception)
| Exited (code : Z).
Arguments Returned {A} value.
Arguments Thrown {A} exn.
Arguments Exited {A} code.

Definition Proc (S A : Type) : Type := S -> Outcome A * S.

Definition ret {S A} (a : A) : Proc S A := fun s => (Returned a, s).

Definition exit {S A} (code : Z) : Proc S A := fun s => (Exited code, s).

Definition bind {S A B} (m : Proc S A) (k : A -> Proc S B) : Proc S B :=
  fun s =>
    match m s with
    | (Returned a, s') => k a s'
    | (Thrown e, s') => (Thrown e, s')
    | (Exited code, s') => (Exited code, s')
    end.

(** [process.env]: the variables that are set, with their values. *)
Abbreviation Env := (gmap string string).

(** A variable used as a condition: unset and the empty string are falsy. *)
Definition truthy (v : option string) : bool :=
  match v with
  | Some (String _ _) => true
  | _ => false
  end.

(** [v === literal] for a variable that may be unset. *)
Definition strictEq (v : option string) (literal : string) : bool :=
  match v with
  | Some s => String.eqb s literal
  | None => false
  end.

End Process.

Declare Scope proc_scope.
Delimit Scope proc_scope with proc.
Notation "'let*' x ':=' m 'in' k" :=
  (Process.bind m (fun x => k))
  (at level 10, x name, m at level 100, k at level 200) : proc_scope.

(** ** [astro.config.ts]: the site URL and the clean-up after a build *)

Module AstroConfig.
Import Process.
Local Open Scope proc_scope.

(** The lines written by [console.error]. *)
Definition Console : Type := list string.

Definition consoleError (line : string) : Proc Console unit :=
  fun out => (Returned tt, out ++ [line]).

Definition getSiteUrl (env : Env) : Proc Console (option string) :=
  if truthy (env !! "ASTRO_SITE") then ret (env !! "ASTRO_SITE")
  else if truthy (env !! "NETLIFY") then ret (env !! "URL")
  else if truthy (env !! "RENDER") then ret (env !! "RENDER_EXTERNAL_URL")
  else if truthy (env !! "CF_PAGES") then ret (env !! "CF_PAGES_URL")
  else
    let* _ :=
      (if truthy (env !! "CI") && negb (strictEq (env !! "CI_CHECKS") "true")
       then
         let* _ := consoleError
           "Site URL not not found. Please set the ASTRO_SITE environment variable." in
         exit 1%Z
       else ret tt) in
    ret (Some "http://localhost:4321").

(** A path, by its segments; [join(path, name)] adds one. *)
Definition Path : Type := list string.

(** The file system: the paths of the files and directories there are. *)
Abbreviation FileSystem := (gset (list string)).

Definition existsSync (path : Path) : Proc FileSystem bool :=
  fun fs => (Returned (bool_decide (path ∈ fs)), fs).

(** [rm(path, { recursive: true })]: the entry and everything below it; a
    missing entry is an error. *)
Definition rm_recursive (path : Path) : Proc FileSystem unit :=
  fun fs =>
    if bool_decide (path ∈ fs)
    then (Returned tt, filter (fun p => ¬ (path `prefix_of` p)) fs)
    else (Thrown (Js.Error "ENOENT: no such file or directory"), fs).

Definition removeIfExists (path : Path) : Proc FileSystem unit :=
  let* present := existsSync path in
  if present then rm_recursive path else ret tt.



End AstroConfig.

(** ** [eslint.config.mjs]: [withAstroFiles] *)

Module EslintConfig.
Import Js.

(** The [files] arrays are shared mutable objects: a configuration holds a
    reference to its array. *)
Abbreviation Arrays := (gmap positive (list string)).

(** A configuration object: its name and its [files] array when it has one;
    the other properties play no part here. *)
Record Config : Type := {
  name : string;
  files : option positive
}.

Definition astroGlob : string := "**/*.astro".

(** [array.includes(x)] *)
Definition includes (array : list string) (x : string) : bool :=
  existsb (String.eqb x) array.

Definition withAstroFiles (config : Config) : Eff Arrays Config :=
  fun h =>
    match files config with
    | None => (Normal config, h)
    | Some r =>
        match h !! r with
        | None => (Throw (TypeError "files is not an array"), h)
        | Some array =>
            if negb (includes array astroGlob)
            then (Normal config, <[r := array ++ [astroGlob]]> h)
            else (Normal config, h)
        end
    end.

(** The array as a call of [withAstroFiles] leaves it. *)
Definition withGlob (array : list string) : list string :=
  if negb (includes array astroGlob) then array ++ [astroGlob] else array.

(** [configs.map(withAstroFiles)]: the elements in order. *)
Fixpoint mapWithAstroFiles (configs : list Config) : Eff Arrays (list Config) :=
  match configs with
  | [] => ret []
  | config :: rest =>
      bind (withAstroFiles config) (fun c =>
      bind (mapWithAstroFiles rest) (fun cs => ret (c :: cs)))
  end.

End EslintConfig.

(** ** The CLI commands [build] and [generate] *)

Module Cli.
Import Process.
Local Open Scope proc_scope.

(** The calls of the helpers of [cli/helpers.ts]. *)
Inductive Call : Type :=
| Exec (command : string)
| ExecWithLocalServer (command : string)
| AssertServerIsRunning
| LogInfo (message : string)
| LogSuccess (message : string).

Section Helpers.
(** The helpers are not among the sources: what a call does to the world
    and whether it throws is a parameter. *)
Variable World : Type.
Variable helper : Call -> World -> Js.Completion unit * World.

(** The state of a run: the world and the calls made so far. *)
Definition State : Type := (World * list Call)%type.

Definition call (c : Call) : Proc State unit :=
  fun st =>
    match helper c (fst st) with
    | (Js.Normal _, w) => (Returned tt, (w, snd st ++ [c]))
    | (Js.Throw e, w) => (Thrown e, (w, snd st ++ [c]))
    end.

Definition reinstallPuppeteer : Proc State unit :=
  let* _ := call (LogInfo "Reinstalling puppeteer...") in
  let* _ := call (Exec "npm rm puppeteer --no-save") in
  let* _ := call (Exec "npm add puppeteer --no-save") in
  call (LogSuccess "Puppeteer reinstalled successfully").

Definition startServerAndTest : string :=
  "npx start-server-and-test " +:+ GetContent.quote
  +:+ "astro preview --port 4321 --host" +:+ GetContent.quote
  +:+ " http://localhost:4321 " +:+ GetContent.quote
  +:+ "npm run generate" +:+ GetContent.quote.

(** [buildCommand], the version that knows Vercel. *)
Definition buildCommand (env : Env) : Proc State unit :=
  let isVercel := strictEq (env !! "VERCEL") "1" in
  let* _ := (if truthy (env !! "NETLIFY") then reinstallPuppeteer else ret tt) in
  let* _ :=
    (if isVercel then
       let* _ := call (LogInfo "Building for Vercel with asset generation...") in
       let* _ := call (Exec "astro build") in
       let* _ := call (LogInfo "Generating PDFs and OG images...") in
       let* _ := call (Exec startServerAndTest) in
       call (Exec "astro build")
     else
       let* _ := call (ExecWithLocalServer "npm run generate") in
       call (Exec "astro build")) in
  exit 0%Z.

(** [buildCommand], the version without the Vercel branch. *)
Definition buildCommandLocal (env : Env) : Proc State unit :=
  let* _ := (if truthy (env !! "NETLIFY") then reinstallPuppeteer else ret tt) in
  let* _ := call (ExecWithLocalServer "npm run generate") in
  let* _ := call (Exec "astro build") in
  exit 0%Z.

Definition concurrentlyGenerate : string :=
  "concurrently " +:+ GetContent.quote +:+ "npm:generate:*(!watch)"
  +:+ GetContent.quote +:+ " -c red,yellow,blue".

Definition generateCommand : Proc State unit :=
  let* _ := call AssertServerIsRunning in
  let* _ := call (Exec concurrentlyGenerate) in
  exit 0%Z.

(** Calls made one after the other, up to the first that throws. *)
Fixpoint callAll (cs : list Call) : Proc State unit :=
  match cs with
  | [] => ret tt
  | c :: rest => let* _ := call c in callAll rest
  end.

End Helpers.

(** The calls of a run of [buildCommand] in which no helper throws. *)
Definition reinstallCalls : list Call :=
  [ LogInfo "Reinstalling puppeteer..."; Exec "npm rm puppeteer --no-save";
    Exec "npm add puppeteer --no-save";
    LogSuccess "Puppeteer reinstalled successfully" ].

Definition buildCalls (env : Env) : list Call :=
  (if truthy (env !! "NETLIFY") then reinstallCalls else [])
  ++ (if strictEq (env !! "VERCEL") "1"
      then [ LogInfo "Building for Vercel with asset generation...";
             Exec "astro build"; LogInfo "Generating PDFs and OG images...";
             Exec startServerAndTest; Exec "astro build" ]
      else [ ExecWithLocalServer "npm run generate"; Exec "astro build" ]).

End Cli.

(** ** Sample helpers for the CLI commands *)

Module CliSamples.
Import Cli.

(** The world counts the calls; every call succeeds. *)
Definition succeed (c : Call) (w : nat) : Js.Completion unit * nat :=
  (Js.Normal tt, S w).

(** No server is running: the check throws, everything else succeeds. *)
Definition noServer (c : Call) (w : nat) : Js.Completion unit * nat :=
  match c with
  | AssertServerIsRunning => (Js.Throw (Js.Error "Server is not running"), S w)
  | _ => (Js.Normal tt, S w)
  end.

End CliSamples.

(** * Facts about the calendar arithmetic *)

(** Goals about floors and remainders: name quotients and remainders, then
    decide the linear arithmetic. *)
Ltac by_euclid := Z.to_euclidean_division_equations; lia.

Section Calendar.
Import EcmaDate.
Local Open Scope Z_scope.

Lemma DaysInYear_cases (y : Z) : DaysInYear y = 365 \/ DaysInYear y = 366.
Proof.
  unfold DaysInYear.
  destruct (y mod 4 =? 0), (y mod 100 =? 0), (y mod 400 =? 0); simpl; auto.
Qed.

(** One year later is [DaysInYear] days later. *)
Lemma DayFromYear_succ (y : Z) : DayFromYear (y + 1) = DayFromYear y + DaysInYear y.
Proof.
  unfold DayFromYear, DaysInYear.
  destruct (Z.eqb_spec (y mod 4) 0), (Z.eqb_spec (y mod 100) 0),
    (Z.eqb_spec (y mod 400) 0); simpl; by_euclid.
Qed.

Lemma DayFromYear_lt (y y' : Z) : y < y' -> DayFromYear y < DayFromYear y'.
Proof. unfold DayFromYear. intros H. by_euclid. Qed.

Lemma DayFromYear_le (y y' : Z) : y <= y' -> DayFromYear y <= DayFromYear y'.
Proof. unfold DayFromYear. intros H. by_euclid. Qed.

Lemma TimeFromYear_le_Day (y t : Z) : TimeFromYear y <= t <-> DayFromYear y <= Day t.
Proof. unfold TimeFromYear, Day, msPerDay. by_euclid. Qed.

(** [YearFromTime] meets its specification in ECMA-262: it is the largest
    year that starts at or before [t]. *)
Lemma YearFromTime_spec (t : Z) :
  TimeFromYear (YearFromTime t) <= t < TimeFromYear (YearFromTime t + 1).
Proof.
  unfold YearFromTime.
  set (y0 := 1970 + 400 * Day t / 146097).
  assert (Hlo : DayFromYear (y0 - 1) <= Day t).
  { subst y0. unfold DayFromYear. by_euclid. }
  assert (Hhi : Day t < DayFromYear (y0 + 2)).
  { subst y0. unfold DayFromYear. by_euclid. }
  destruct (Z.ltb_spec t (TimeFromYear y0)) as [H1 | H1].
  - replace (y0 - 1 + 1) with y0 by lia. split; [|exact H1].
    apply TimeFromYear_le_Day, Hlo.
  - destruct (Z.leb_spec (TimeFromYear (y0 + 1)) t) as [H2 | H2].
    + split; [exact H2|]. replace (y0 + 1 + 1) with (y0 + 2) by lia.
      apply Z.nle_gt. intros H3. apply TimeFromYear_le_Day in H3. lia.
    + split; [exact H1 | exact H2].
Qed.

Lemma YearFromTime_largest (t y : Z) : TimeFromYear y <= t -> y <= YearFromTime t.
Proof.
  intros H. destruct (Z.le_gt_cases y (YearFromTime t)) as [|Hgt]; [assumption|].
  pose proof (YearFromTime_spec t) as [_ Hs].
  assert (DayFromYear (YearFromTime t + 1) <= DayFromYear y)
    by (apply DayFromYear_le; lia).
  unfold TimeFromYear, msPerDay in *. lia.
Qed.

Lemma YearFromTime_unique (t y : Z) :
  TimeFromYear y <= t < TimeFromYear (y + 1) -> YearFromTime t = y.
Proof.
  intros [Hlo Hhi]. apply Z.le_antisymm; [|apply YearFromTime_largest, Hlo].
  destruct (Z.le_gt_cases (YearFromTime t) y) as [|Hgt]; [assumption|].
  pose proof (YearFromTime_spec t) as [Hs _].
  assert (DayFromYear (y + 1) <= DayFromYear (YearFromTime t))
    by (apply DayFromYear_le; lia).
  unfold TimeFromYear, msPerDay in *. lia.
Qed.

Lemma DayWithinYear_range (t : Z) :
  0 <= DayWithinYear t < DaysInYear (YearFromTime t).
Proof.
  unfold DayWithinYear.
  pose proof (YearFromTime_spec t) as [Hlo Hhi].
  apply TimeFromYear_le_Day in Hlo.
  assert (Day t < DayFromYear (YearFromTime t + 1)).
  { apply Z.nle_gt. intros H. apply TimeFromYear_le_Day in H. lia. }
  rewrite DayFromYear_succ in *. lia.
Qed.

(** The month and the day of the month, given the day within the year. *)
Lemma month_date_of_day (t : Z) :
  let d := DayWithinYear t in
  let l := InLeapYear t in
  let m := MonthFromTime t in
  0 <= m <= 11 /\ 1 <= DateFromTime t <= 31 /\
  DaysBeforeMonth (YearFromTime t) m + DateFromTime t - 1 = d.
Proof.
  pose proof (DayWithinYear_range t) as Hd.
  unfold DateFromTime, MonthFromTime, DaysBeforeMonth, InLeapYear in *.
  destruct (DaysInYear_cases (YearFromTime t)) as [E | E]; rewrite E in *;
    change (365 =? 366) with false; change (366 =? 366) with true; cbv zeta iota;
    repeat (match goal with
            | |- context [?a <? ?b] => destruct (Z.ltb_spec a b)
            end; [cbv iota; lia|]); cbv iota; lia.
Qed.

Lemma MonthFromTime_range (t : Z) : 0 <= MonthFromTime t <= 11.
Proof. apply (month_date_of_day t). Qed.

Lemma DateFromTime_range (t : Z) : 1 <= DateFromTime t <= 31.
Proof. apply (month_date_of_day t). Qed.

Lemma DaysBeforeMonth_range (y mn : Z) : 0 <= DaysBeforeMonth y mn <= 335.
Proof.
  unfold DaysBeforeMonth.
  destruct (DaysInYear y =? 366); destruct mn as [|p|p]; try lia;
    do 4 (try destruct p as [p|p|]); lia.
Qed.

(** [MakeDay] for a month index within the year. *)
Lemma MakeDay_in_year (y m dt : Z) :
  0 <= m <= 11 ->
  MakeDay y m dt = DayFromYear y + DaysBeforeMonth y m + dt - 1.
Proof.
  intros Hm. unfold MakeDay.
  replace (m / 12) with 0 by by_euclid.
  replace (m mod 12) with m by by_euclid.
  rewrite Z.add_0_r. unfold TimeFromYear, Day, msPerDay.
  generalize (DayFromYear y) (DaysBeforeMonth y m). intros a b. by_euclid.
Qed.

(** Taking a time value apart into year, month and day and putting the
    fields together again gives its day number. *)
Lemma MakeDay_fields (t : Z) :
  MakeDay (YearFromTime t) (MonthFromTime t) (DateFromTime t) = Day t.
Proof.
  destruct (month_date_of_day t) as (Hm & _ & Hd).
  rewrite MakeDay_in_year by exact Hm.
  unfold DayWithinYear in Hd. lia.
Qed.

(** A day built from in-range fields lies in the given year or, when the
    day of the month overflows December, at the start of the next. *)
Lemma MakeDay_year (y m dt : Z) :
  0 <= m <= 11 -> 1 <= dt <= 31 ->
  y <= YearFromTime (MakeDay y m dt * msPerDay) <= y + 1.
Proof.
  intros Hm Hdt. rewrite MakeDay_in_year by exact Hm.
  pose proof (DaysBeforeMonth_range y m) as Hb.
  set (day := DayFromYear y + DaysBeforeMonth y m + dt - 1).
  assert (Hday : Day (day * msPerDay) = day) by (unfold Day, msPerDay; by_euclid).
  split.
  - apply YearFromTime_largest, TimeFromYear_le_Day. rewrite Hday. subst day. lia.
  - destruct (Z.le_gt_cases (YearFromTime (day * msPerDay)) (y + 1)) as [|Hgt];
      [assumption|].
    pose proof (YearFromTime_spec (day * msPerDay)) as [Hs _].
    apply TimeFromYear_le_Day in Hs. rewrite Hday in Hs.
    assert (DayFromYear (y + 2) <= DayFromYear (YearFromTime (day * msPerDay)))
      by (apply DayFromYear_le; lia).
    pose proof (DayFromYear_succ y). pose proof (DayFromYear_succ (y + 1)).
    replace (y + 1 + 1) with (y + 2) in * by lia.
    pose proof (DaysInYear_cases y). pose proof (DaysInYear_cases (y + 1)).
    subst day. lia.
Qed.

(** All four UTC time fields are zero exactly at the multiples of a day. *)
Lemma midnight_fields (t : Z) :
  (HourFromTime t = 0 /\ MinFromTime t = 0 /\ SecFromTime t = 0 /\ msFromTime t = 0)
  <-> t mod msPerDay = 0.
Proof.
  unfold HourFromTime, MinFromTime, SecFromTime, msFromTime, msPerHour,
    msPerMinute, msPerSecond, msPerDay, HoursPerDay, MinutesPerHour,
    SecondsPerMinute.
  by_euclid.
Qed.

(** The time that [MakeDay] looks for is the first day of the month. *)
Lemma MakeDay_month_start (y m : Z) :
  0 <= m <= 11 ->
  let t := TimeFromYear y + DaysBeforeMonth y m * msPerDay in
  YearFromTime t = y /\ MonthFromTime t = m /\ DateFromTime t = 1.
Proof.
  intros Hm t.
  pose proof (DaysBeforeMonth_range y m) as Hb.
  pose proof (DayFromYear_succ y) as Hs.
  assert (Hday : Day t = DayFromYear y + DaysBeforeMonth y m).
  { subst t. unfold TimeFromYear, Day, msPerDay.
    generalize (DayFromYear y) (DaysBeforeMonth y m). intros a b. by_euclid. }
  assert (Hy : YearFromTime t = y).
  { apply YearFromTime_unique. split.
    - apply TimeFromYear_le_Day. lia.
    - apply Z.nle_gt. intros H. apply TimeFromYear_le_Day in H.
      pose proof (DaysInYear_cases y). lia. }
  assert (Hd : DayWithinYear t = DaysBeforeMonth y m).
  { unfold DayWithinYear. rewrite Hy, Hday. lia. }
  split; [exact Hy|].
  unfold DateFromTime, MonthFromTime, InLeapYear. rewrite Hd, Hy.
  unfold DaysBeforeMonth.
  assert (Hc : m = 0 \/ m = 1 \/ m = 2 \/ m = 3 \/ m = 4 \/ m = 5 \/ m = 6 \/
               m = 7 \/ m = 8 \/ m = 9 \/ m = 10 \/ m = 11) by lia.
  destruct (DaysInYear y =? 366);
    repeat (destruct Hc as [-> | Hc]; [split; reflexivity|]);
    subst m; split; reflexivity.
Qed.

End Calendar.

(** * Facts about the normalization of date-only values *)

Section Normalization.
Import Js EcmaDate DateObject DateFns Context FormatDate TimeValues.
Local Open Scope Z_scope.

Lemma midnightUtc_mod (t : Z) : midnightUtc (Some t) = true <-> t mod msPerDay = 0.
Proof.
  rewrite <- midnight_fields. unfold midnightUtc. simpl.
  rewrite !andb_true_iff, !Z.eqb_eq. tauto.
Qed.

Lemma midnightUtc_NaN : midnightUtc NaN = false.
Proof. reflexivity. Qed.

Lemma MakeFullYear_outside (y : Z) : ~ 0 <= y <= 99 -> MakeFullYear y = y.
Proof.
  intros H. unfold MakeFullYear.
  destruct (Z.leb_spec 0 y), (Z.leb_spec y 99); simpl; lia.
Qed.

Lemma MakeFullYear_range (y : Z) : ~ 0 <= MakeFullYear y <= 99.
Proof.
  unfold MakeFullYear. destruct (Z.leb_spec 0 y), (Z.leb_spec y 99); simpl; lia.
Qed.

Lemma construct_value (tza : LocalTZA) (y m dt : Z) :
  construct tza (Some y) (Some m) (Some dt)
  = TimeClip (MakeDay (MakeFullYear y) m dt * msPerDay - tza).
Proof.
  unfold construct, MakeDate, MakeTime, UTC. f_equal. lia.
Qed.

(** Away from the years 0 to 99, the constructor applied to the fields of a
    UTC midnight gives the same fields as local time. *)
Lemma construct_fields (tza : LocalTZA) (t : Z) :
  t mod msPerDay = 0 -> ~ 0 <= YearFromTime t <= 99 ->
  construct tza (Some (YearFromTime t)) (Some (MonthFromTime t)) (Some (DateFromTime t))
  = TimeClip (t - tza).
Proof.
  intros Hmid Hy. rewrite construct_value, MakeFullYear_outside by exact Hy.
  rewrite MakeDay_fields. f_equal. unfold Day, msPerDay in *. by_euclid.
Qed.

Lemma TimeClip_Some (t v : Z) : TimeClip t = Some v -> v = t /\ - maxTime <= t <= maxTime.
Proof.
  unfold TimeClip. destruct (Z.ltb_spec maxTime (Z.abs t)); [discriminate|].
  intros [= <-]. lia.
Qed.

Lemma TimeClip_in_range (t : Z) : - maxTime <= t <= maxTime -> TimeClip t = Some t.
Proof.
  intros H. unfold TimeClip. destruct (Z.ltb_spec maxTime (Z.abs t)); [lia | reflexivity].
Qed.

(** The normalized value of a date-only value whose year is not between 0
    and 99: the local midnight of the same calendar day. *)
Lemma normalized_midnight (tza : LocalTZA) (t : Z) :
  t mod msPerDay = 0 -> ~ 0 <= YearFromTime t <= 99 ->
  normalized tza (Some t) = TimeClip (t - tza).
Proof.
  intros Hmid Hy. unfold normalized.
  rewrite (proj2 (midnightUtc_mod t) Hmid).
  exact (construct_fields tza t Hmid Hy).
Qed.

Lemma normalized_instant (tza : LocalTZA) (tv : Number) :
  midnightUtc tv = false -> normalized tza tv = tv.
Proof. intros H. unfold normalized. rewrite H. reflexivity. Qed.

(** Normalizing twice is normalizing once. *)
Lemma normalized_idempotent (tza : LocalTZA) (tv : Number) :
  validTZA tza -> normalized tza (normalized tza tv) = normalized tza tv.
Proof.
  intros Htz.
  destruct (midnightUtc tv) eqn:Emid;
    [|rewrite (normalized_instant _ _ Emid); apply normalized_instant, Emid].
  destruct tv as [t|]; [|discriminate].
  assert (E1 : normalized tza (Some t)
               = construct tza (Some (YearFromTime t)) (Some (MonthFromTime t))
                   (Some (DateFromTime t)))
    by (unfold normalized; rewrite Emid; reflexivity).
  rewrite E1, construct_value.
  set (day := MakeDay (MakeFullYear (YearFromTime t)) (MonthFromTime t) (DateFromTime t)).
  destruct (TimeClip (day * msPerDay - tza)) as [v|] eqn:Eclip; [|reflexivity].
  apply TimeClip_Some in Eclip as [-> Hrange].
  destruct (Z.eq_dec tza 0) as [-> | Hne].
  - rewrite Z.sub_0_r in *.
    assert (Hmid : (day * msPerDay) mod msPerDay = 0) by apply Z_mod_mult.
    assert (Hy : ~ 0 <= YearFromTime (day * msPerDay) <= 99).
    { destruct (Z.lt_ge_cases (YearFromTime t) 0) as [Hneg | Hpos];
        [|destruct (Z.le_gt_cases (YearFromTime t) 99) as [Hquirk | Hbig]].
      - (* a year before 0: the fields are those of [t] itself *)
        subst day. rewrite MakeFullYear_outside, MakeDay_fields by lia.
        apply midnightUtc_mod in Emid.
        replace (Day t * msPerDay) with t by (unfold Day, msPerDay in *; by_euclid).
        lia.
      - (* a year from 0 to 99 is moved to 1900 .. 1999 *)
        pose proof (MakeDay_year (MakeFullYear (YearFromTime t)) _ _
                      (MonthFromTime_range t) (DateFromTime_range t)) as Hyr.
        fold day in Hyr. unfold MakeFullYear in Hyr.
        destruct (Z.leb_spec 0 (YearFromTime t)), (Z.leb_spec (YearFromTime t) 99);
          simpl in Hyr; lia.
      - subst day. rewrite MakeFullYear_outside, MakeDay_fields by lia.
        apply midnightUtc_mod in Emid.
        replace (Day t * msPerDay) with t by (unfold Day, msPerDay in *; by_euclid).
        lia. }
    rewrite normalized_midnight by assumption.
    rewrite Z.sub_0_r. apply TimeClip_in_range, Hrange.
  - apply normalized_instant.
    destruct (midnightUtc (Some (day * msPerDay - tza))) eqn:E; [|reflexivity].
    apply midnightUtc_mod in E. unfold validTZA, msPerDay in *. by_euclid.
Qed.

(** Reading the time fields of a [Date] object. *)
Lemma isMidnightUtc_run (h : Heap) (date : ref) (tv : Number) :
  h !! date = Some tv -> isMidnightUtc date h = (Normal (midnightUtc tv), h).
Proof.
  intros Hd.
  unfold isMidnightUtc, getUTCHours, getUTCMinutes, getUTCSeconds,
    getUTCMilliseconds, thisTimeValue, bind, ret, midnightUtc.
  rewrite Hd.
  destruct (strictEqZero (HourFromTime <$> tv)); simpl; [|reflexivity].
  rewrite Hd. destruct (strictEqZero (MinFromTime <$> tv)); simpl; [|reflexivity].
  rewrite Hd. destruct (strictEqZero (SecFromTime <$> tv)); simpl; [|reflexivity].
  rewrite Hd. reflexivity.
Qed.

Lemma isMidnightUtc_not_a_date (h : Heap) (date : ref) :
  h !! date = None ->
  isMidnightUtc date h = (Throw (TypeError "this is not a Date object."), h).
Proof.
  intros Hd. unfold isMidnightUtc, getUTCHours, thisTimeValue, bind. rewrite Hd.
  reflexivity.
Qed.

(** What [normalizeDateOnlyToLocal] does to the heap and what it returns. *)
Lemma normalize_run (tza : LocalTZA) (h : Heap) (date : ref) (tv : Number) :
  h !! date = Some tv ->
  normalizeDateOnlyToLocal tza date h
  = if midnightUtc tv
    then (Normal (fresh (dom h)), <[fresh (dom h) := normalized tza tv]> h)
    else (Normal date, h).
Proof.
  intros Hd. unfold normalizeDateOnlyToLocal, bind at 1.
  rewrite (isMidnightUtc_run _ _ _ Hd).
  unfold normalized. destruct (midnightUtc tv); simpl; [|reflexivity].
  unfold getUTCFullYear, getUTCMonth, getUTCDate, thisTimeValue, bind, ret, newDate.
  rewrite Hd. simpl. rewrite Hd. simpl. rewrite Hd. reflexivity.
Qed.

Lemma fresh_not_allocated (h : Heap) : h !! fresh (dom h) = None.
Proof. apply not_elem_of_dom, is_fresh. Qed.

(** The normalization returns a [Date] holding the normalized value and
    leaves every object of the heap as it was. *)
Lemma normalize_result (tza : LocalTZA) (h : Heap) (date : ref) (tv : Number) :
  h !! date = Some tv ->
  exists d' h',
    normalizeDateOnlyToLocal tza date h = (Normal d', h')
    /\ h' !! d' = Some (normalized tza tv)
    /\ (forall r x, h !! r = Some x -> h' !! r = Some x).
Proof.
  intros Hd. rewrite (normalize_run _ _ _ _ Hd).
  destruct (midnightUtc tv) eqn:E.
  - eexists _, _. split; [reflexivity|]. split.
    + apply lookup_insert_eq.
    + intros r x Hr. rewrite lookup_insert_ne; [exact Hr|].
      intros <-. rewrite fresh_not_allocated in Hr. discriminate.
  - exists date, h. split; [reflexivity|]. split; [|auto].
    rewrite normalized_instant by exact E. exact Hd.
Qed.

End Normalization.

(** * [formatDate] *)

Section FormatDateFacts.
Import Js EcmaDate DateObject DateFns Context FormatDate TimeValues.
Local Open Scope Z_scope.

Variable tza : LocalTZA.
Variable format : Backend.

Lemma callFormat_run (h : Heap) (date : ref) (tv : Number)
    (pattern : string) (l : Locale) :
  h !! date = Some tv ->
  callFormat tza format date pattern l h = (format tza tv pattern l, h).
Proof.
  intros Hd. unfold callFormat, thisTimeValue, bind, lift. rewrite Hd. reflexivity.
Qed.

(** [formatDate] formats the normalized value of its argument. *)
Lemma formatDate_run (h : Heap) (date : ref) (tv : Number)
    (astro : AstroGlobal) (context : RenderContext) :
  getGlobalContext astro = Normal context ->
  h !! date = Some tv ->
  formatDate tza format date astro h
  = (format tza (normalized tza tv) (dateFormat context) (locale context),
     if midnightUtc tv then <[fresh (dom h) := normalized tza tv]> h else h).
Proof.
  intros Hc Hd. unfold formatDate, bind at 1, lift at 1. rewrite Hc.
  unfold bind. rewrite (normalize_run _ _ _ _ Hd).
  destruct (midnightUtc tv) eqn:E.
  - apply callFormat_run, lookup_insert_eq.
  - rewrite (normalized_instant _ _ E). apply callFormat_run, Hd.
Qed.

Lemma formatDate_no_context (h : Heap) (date : ref) (astro : AstroGlobal) :
  globalContext astro = None ->
  formatDate tza format date astro h = (Throw ConfigurationError, h).
Proof.
  intros Hc. unfold formatDate, bind, lift, getGlobalContext. rewrite Hc. reflexivity.
Qed.

Lemma formatDate_not_a_date (h : Heap) (date : ref)
    (astro : AstroGlobal) (context : RenderContext) :
  getGlobalContext astro = Normal context ->
  h !! date = None ->
  formatDate tza format date astro h
  = (Throw (TypeError "this is not a Date object."), h).
Proof.
  intros Hc Hd. unfold formatDate, bind at 1, lift at 1. rewrite Hc.
  unfold bind at 1, normalizeDateOnlyToLocal, bind at 1.
  rewrite (isMidnightUtc_not_a_date _ _ Hd). reflexivity.
Qed.

(** Whatever happens, the objects of the heap keep their values. *)
Lemma formatDate_frame (h : Heap) (date : ref) (astro : AstroGlobal) (r : ref)
    (x : Number) :
  h !! r = Some x -> final (formatDate tza format date astro) h !! r = Some x.
Proof.
  intros Hr. unfold final.
  destruct (globalContext astro) as [context|] eqn:Ec;
    [|rewrite formatDate_no_context by exact Ec; exact Hr].
  assert (Hc : getGlobalContext astro = Normal context)
    by (unfold getGlobalContext; rewrite Ec; reflexivity).
  destruct (h !! date) as [tv|] eqn:Hd;
    [|rewrite (formatDate_not_a_date _ _ _ _ Hc Hd); exact Hr].
  rewrite (formatDate_run _ _ _ _ _ Hc Hd). simpl.
  destruct (midnightUtc tv); [|exact Hr].
  rewrite lookup_insert_ne; [exact Hr|].
  intros <-. rewrite fresh_not_allocated in Hr. discriminate.
Qed.

(** The outcome depends on the heap only through the value of the date. *)
Lemma formatDate_value (h1 h2 : Heap) (date1 date2 : ref) (astro : AstroGlobal) :
  h1 !! date1 = h2 !! date2 ->
  result (formatDate tza format date1 astro) h1
  = result (formatDate tza format date2 astro) h2.
Proof.
  intros Heq. unfold result.
  destruct (globalContext astro) as [context|] eqn:Ec;
    [|rewrite !formatDate_no_context by exact Ec; reflexivity].
  assert (Hc : getGlobalContext astro = Normal context)
    by (unfold getGlobalContext; rewrite Ec; reflexivity).
  destruct (h2 !! date2) as [tv|] eqn:Hd.
  - rewrite (formatDate_run _ _ _ _ _ Hc Heq), (formatDate_run _ _ _ _ _ Hc Hd).
    reflexivity.
  - rewrite (formatDate_not_a_date _ _ _ _ Hc Heq),
      (formatDate_not_a_date _ _ _ _ Hc Hd). reflexivity.
Qed.

End FormatDateFacts.

(** The numeric backend sees a date through its local time only. *)
Lemma formatTokens_local (tza tza' : EcmaDate.LocalTZA) (t t' : Z)
    (l : DateFns.Locale) (ts : list (ascii * nat)) :
  EcmaDate.LocalTime tza t = EcmaDate.LocalTime tza' t' ->
  DateFns.formatTokens tza t l ts = DateFns.formatTokens tza' t' l ts.
Proof.
  intros H. induction ts as [|tok ts IH]; [reflexivity|].
  cbn [DateFns.formatTokens]. rewrite IH. clear IH.
  replace (DateFns.formatToken tza t l tok) with (DateFns.formatToken tza' t' l tok);
    [reflexivity|].
  unfold DateFns.formatToken, DateObject.localFullYear, DateObject.localMonth,
    DateObject.localDate, DateObject.localHours, DateObject.localMinutes,
    DateObject.localSeconds.
  rewrite H. reflexivity.
Qed.

Lemma formatNumeric_local (tza : EcmaDate.LocalTZA) (t : Z) (pattern : string)
    (l : DateFns.Locale) :
  DateFns.formatNumeric tza (Some (t - tza)%Z) pattern l
  = DateFns.formatNumeric 0%Z (Some t) pattern l.
Proof.
  unfold DateFns.formatNumeric. apply formatTokens_local.
  unfold EcmaDate.LocalTime. lia.
Qed.

(** * The date formatter: date-only values and instants *)

Section DateClaims.
Import Js EcmaDate DateObject DateFns Context FormatDate TimeValues Samples.
Local Open Scope Z_scope.

(** A date-only value whose UTC year is not between 0 and 99, and whose local
    midnight is still a time value, is re-anchored: [formatDate] formats the
    date whose local year, month and day are the UTC year, month and day of
    the input, at local midnight. *)
Lemma formatDate_reanchors (tza : LocalTZA) (format : Backend) (h : Heap)
    (date : ref) (t : Z) (astro : AstroGlobal) (context : RenderContext) :
  getGlobalContext astro = Normal context ->
  h !! date = Some (Some t) ->
  HourFromTime t = 0 /\ MinFromTime t = 0 /\ SecFromTime t = 0 /\ msFromTime t = 0 ->
  ~ 0 <= YearFromTime t <= 99 ->
  - maxTime <= t - tza <= maxTime ->
  result (formatDate tza format date astro) h
  = format tza (Some (t - tza)) (dateFormat context) (locale context)
  /\ localFullYear tza (t - tza) = YearFromTime t
  /\ localMonth tza (t - tza) = MonthFromTime t
  /\ localDate tza (t - tza) = DateFromTime t
  /\ localHours tza (t - tza) = 0 /\ localMinutes tza (t - tza) = 0
  /\ localSeconds tza (t - tza) = 0 /\ localMilliseconds tza (t - tza) = 0.
Proof.
  intros Hc Hd Hzero Hy Hrange.
  assert (Hmid : t mod msPerDay = 0) by (apply midnight_fields, Hzero).
  unfold result. rewrite (formatDate_run _ _ _ _ _ _ _ Hc Hd).
  rewrite normalized_midnight, TimeClip_in_range by assumption.
  unfold localFullYear, localMonth, localDate, localHours, localMinutes,
    localSeconds, localMilliseconds, LocalTime.
  replace (t - tza + tza) with t by lia. tauto.
Qed.

(** The scenario of the specification: the date-only value 2024-03-15 is
    printed as 15/03/2024 under every host offset. *)
Lemma formatDate_2024_03_15 (tza : LocalTZA) (l : Locale) (h : Heap) (date : ref) :
  validTZA tza ->
  Date_UTC 2024 2 15 0 0 0 0 = Some day_2024_03_15
  /\ (h !! date = Some (Some day_2024_03_15) ->
      result (formatDate tza formatNumeric date (astroOf l)) h = Normal "15/03/2024").
Proof.
  intros Htz. split; [reflexivity|]. intros Hd.
  destruct (formatDate_reanchors tza formatNumeric h date day_2024_03_15
              (astroOf l) (contextOf l) eq_refl Hd) as [-> _].
  - repeat split; reflexivity.
  - assert (E : YearFromTime day_2024_03_15 = 2024) by reflexivity. rewrite E. lia.
  - unfold validTZA, msPerDay, maxTime, day_2024_03_15 in *. lia.
  - rewrite formatNumeric_local. vm_compute. reflexivity.
Qed.

(** C4: at the date-only value 0050-03-15 (UTC midnight, UTC year 50,
    month 2, day 15) [formatDate] does not print the calendar day of the
    input: [new Date(50, 2, 15)] is a day of 1950, and the pattern dd/MM/yyyy
    yields 15/03/1950 under every host offset. *)
Theorem formatDate_year_0050 (tza : LocalTZA) (l : Locale) (h : Heap) (date : ref) :
  validTZA tza ->
  h !! date = Some (Some day_0050_03_15) ->
  midnightUtc (Some day_0050_03_15) = true
  /\ YearFromTime day_0050_03_15 = 50
  /\ MonthFromTime day_0050_03_15 = 2
  /\ DateFromTime day_0050_03_15 = 15
  /\ formatNumeric 0 (Some day_0050_03_15) "dd/MM/yyyy" l = Normal "15/03/0050"
  /\ result (formatDate tza formatNumeric date (astroOf l)) h = Normal "15/03/1950".
Proof.
  intros Htz Hd.
  do 4 (split; [reflexivity|]). split; [vm_compute; reflexivity|].
  unfold result.
  rewrite (formatDate_run tza formatNumeric h date _ (astroOf l) (contextOf l) eq_refl Hd).
  cbn [fst].
  assert (E : normalized tza (Some day_0050_03_15)
              = construct tza (Some 50) (Some 2) (Some 15)) by reflexivity.
  rewrite E, construct_value.
  assert (E' : MakeDay (MakeFullYear 50) 2 15 * msPerDay = -624844800000)
    by reflexivity.
  rewrite E', TimeClip_in_range
    by (unfold validTZA, msPerDay, maxTime in *; lia).
  cbn [dateFormat locale contextOf]. rewrite formatNumeric_local.
  vm_compute. reflexivity.
Qed.

Lemma formatDate_year_0050_witness :
  result (formatDate newYork formatNumeric 1%positive (astroOf es))
    {[ 1%positive := Some day_0050_03_15 ]}
  = Normal "15/03/1950".
Proof.
  apply (formatDate_year_0050 newYork es {[ 1%positive := Some day_0050_03_15 ]}
           1%positive).
  - unfold validTZA, newYork, msPerDay. lia.
  - apply lookup_singleton_eq.
Defined.

(** C5: a date with a non-zero UTC time component is passed through by the
    normalization as the same object, in an unchanged heap, and [formatDate]
    formats that original instant. *)
Theorem instant_passthrough (tza : LocalTZA) (format : Backend) (h : Heap)
    (date : ref) (t : Z) (astro : AstroGlobal) (context : RenderContext) :
  h !! date = Some (Some t) ->
  HourFromTime t <> 0 \/ MinFromTime t <> 0 \/ SecFromTime t <> 0 \/ msFromTime t <> 0 ->
  getGlobalContext astro = Normal context ->
  normalizeDateOnlyToLocal tza date h = (Normal date, h)
  /\ formatDate tza format date astro h
     = (format tza (Some t) (dateFormat context) (locale context), h).
Proof.
  intros Hd Hnz Hc.
  assert (E : midnightUtc (Some t) = false).
  { destruct (midnightUtc (Some t)) eqn:E; [|reflexivity].
    apply midnightUtc_mod, midnight_fields in E. tauto. }
  split.
  - rewrite (normalize_run _ _ _ _ Hd), E. reflexivity.
  - rewrite (formatDate_run _ _ _ _ _ _ _ Hc Hd), E, (normalized_instant _ _ E).
    reflexivity.
Qed.

Lemma instant_passthrough_witness :
  normalizeDateOnlyToLocal newYork 1%positive {[ 1%positive := Some instant_2024_03_15 ]}
  = (Normal 1%positive, {[ 1%positive := Some instant_2024_03_15 ]})
  /\ formatDate newYork formatNumeric 1%positive (astroOf es)
       {[ 1%positive := Some instant_2024_03_15 ]}
     = (formatNumeric newYork (Some instant_2024_03_15) "dd/MM/yyyy" es,
        {[ 1%positive := Some instant_2024_03_15 ]}).
Proof.
  apply (instant_passthrough newYork formatNumeric
           {[ 1%positive := Some instant_2024_03_15 ]} 1%positive
           instant_2024_03_15 (astroOf es) (contextOf es)).
  - apply lookup_singleton_eq.
  - left. vm_compute. discriminate.
  - reflexivity.
Defined.

(** C7: [formatDate] leaves every object of the heap, its argument among
    them, with the value it had; and its outcome is a function of the render
    context and of the value of the date alone. *)
Theorem formatDate_pure (tza : LocalTZA) (format : Backend) (astro : AstroGlobal) :
  (forall (h : Heap) (date r : ref) (x : Number),
      h !! r = Some x -> final (formatDate tza format date astro) h !! r = Some x)
  /\ (forall (h1 h2 : Heap) (date1 date2 : ref),
        h1 !! date1 = h2 !! date2 ->
        result (formatDate tza format date1 astro) h1
        = result (formatDate tza format date2 astro) h2).
Proof.
  split.
  - intros h date r x. apply formatDate_frame.
  - intros h1 h2 date1 date2. apply formatDate_value.
Qed.

Lemma formatDate_pure_witness :
  final (formatDate madrid formatNumeric 1%positive (astroOf es))
    {[ 1%positive := Some day_2024_03_15 ]} !! 1%positive
  = Some (Some day_2024_03_15)
  /\ result (formatDate madrid formatNumeric 1%positive (astroOf es))
       {[ 1%positive := Some day_2024_03_15 ]}
     = result (formatDate madrid formatNumeric 2%positive (astroOf es))
         {[ 2%positive := Some day_2024_03_15 ]}.
Proof.
  split.
  - apply (proj1 (formatDate_pure madrid formatNumeric (astroOf es))).
    apply lookup_singleton_eq.
  - apply (proj2 (formatDate_pure madrid formatNumeric (astroOf es))).
    rewrite !lookup_singleton_eq. reflexivity.
Defined.

(** C10: under a host offset shorter than a day, normalizing the result of
    the normalization again yields a date with the same value, hence the
    same formatted string. *)
Theorem normalization_idempotent (tza : LocalTZA) (format : Backend) (h : Heap)
    (date : ref) (tv : Number) :
  validTZA tza ->
  h !! date = Some tv ->
  exists (d1 : ref) (h1 : Heap) (d2 : ref) (h2 : Heap),
    normalizeDateOnlyToLocal tza date h = (Normal d1, h1)
    /\ normalizeDateOnlyToLocal tza d1 h1 = (Normal d2, h2)
    /\ h1 !! d1 = Some (normalized tza tv)
    /\ h2 !! d2 = h1 !! d1
    /\ forall (pattern : string) (l : Locale),
         result (callFormat tza format d2 pattern l) h2
         = result (callFormat tza format d1 pattern l) h1.
Proof.
  intros Htz Hd.
  destruct (normalize_result tza h date tv Hd) as (d1 & h1 & Hrun1 & Hd1 & _).
  destruct (normalize_result tza h1 d1 _ Hd1) as (d2 & h2 & Hrun2 & Hd2 & _).
  rewrite normalized_idempotent in Hd2 by exact Htz.
  exists d1, h1, d2, h2. repeat split; try assumption.
  - congruence.
  - intros pattern l. unfold result.
    rewrite (callFormat_run _ _ _ _ _ _ _ Hd1), (callFormat_run _ _ _ _ _ _ _ Hd2).
    reflexivity.
Qed.

Lemma normalization_idempotent_witness :
  exists (d1 : ref) (h1 : Heap) (d2 : ref) (h2 : Heap),
    normalizeDateOnlyToLocal 0 1%positive {[ 1%positive := Some day_0050_03_15 ]}
    = (Normal d1, h1)
    /\ normalizeDateOnlyToLocal 0 d1 h1 = (Normal d2, h2)
    /\ h1 !! d1 = Some (normalized 0 (Some day_0050_03_15))
    /\ h2 !! d2 = h1 !! d1
    /\ forall (pattern : string) (l : Locale),
         result (callFormat 0 formatNumeric d2 pattern l) h2
         = result (callFormat 0 formatNumeric d1 pattern l) h1.
Proof.
  apply (normalization_idempotent 0 formatNumeric
           {[ 1%positive := Some day_0050_03_15 ]} 1%positive).
  - unfold validTZA, msPerDay. lia.
  - apply lookup_singleton_eq.
Defined.

End DateClaims.

(** * The content store *)

Section StoreFacts.
Import Content.

Lemma getEntry_Some (store : Store) (name key : string) (e : Entry) :
  getEntry store name key = Some e ->
  In e store /\ collection e = name /\ slug e = key.
Proof.
  unfold getEntry, hasKey. intros H. apply find_some in H as [Hin Hkey].
  apply andb_true_iff in Hkey as [Hc Hs].
  apply String.eqb_eq in Hc, Hs. auto.
Qed.

Lemma getEntry_None (store : Store) (name key : string) :
  getEntry store name key = None <->
  forall e, In e store -> ~ (collection e = name /\ slug e = key).
Proof.
  unfold getEntry, hasKey. split.
  - intros H e Hin [Hc Hs]. apply (find_none _ _ H) in Hin.
    rewrite Hc, Hs, !String.eqb_refl in Hin. discriminate.
  - intros H. destruct (find _ store) as [e|] eqn:E; [|reflexivity].
    apply find_some in E as [Hin Hkey].
    apply andb_true_iff in Hkey as [Hc Hs]. apply String.eqb_eq in Hc, Hs.
    destruct (H e Hin). auto.
Qed.

(** A record of the store under a collection and slug is found by the
    lookup for them (the first such record, should there be several). *)
Lemma getEntry_present (store : Store) (name key : string) (e : Entry) :
  In e store -> collection e = name -> slug e = key ->
  exists e', getEntry store name key = Some e'.
Proof.
  intros Hin Hc Hs. destruct (getEntry store name key) as [e'|] eqn:E; [eauto|].
  destruct (proj1 (getEntry_None store name key) E e Hin). auto.
Qed.

Lemma prefix_append (s t : string) : String.prefix s (s +:+ t) = true.
Proof.
  induction s as [|c s IH]; simpl.
  - destruct t; reflexivity.
  - destruct (ascii_dec c c); [exact IH | contradiction].
Qed.

Lemma prefix_refl (s : string) : String.prefix s s = true.
Proof.
  induction s as [|c s IH]; simpl; [reflexivity|].
  destruct (ascii_dec c c); [exact IH | contradiction].
Qed.

Lemma append_length (s t : string) :
  String.length (s +:+ t) = (String.length s + String.length t)%nat.
Proof. induction s as [|c s IH]; simpl; [reflexivity | rewrite IH; reflexivity]. Qed.

(** The suffixed slug is never the identifier itself. *)
Lemma suffixed_neq (id : string) : id +:+ "-es" <> id.
Proof.
  intros H. apply (f_equal String.length) in H. rewrite append_length in H.
  simpl in H. lia.
Qed.

End StoreFacts.

(** * The localized entry resolver *)

Section ResolverFacts.
Import Js DateFns Context Content GetContent.

Variable store : Store.

(** Under the locale "es": the suffixed slug first, then the base slug. *)
Lemma getLocalizedEntry_es (astro : AstroGlobal) (context : RenderContext)
    (c : LocalizableCollection) (id : string) (trace : Trace) :
  getGlobalContext astro = Normal context ->
  code (locale context) = "es" ->
  getLocalizedEntry store astro c id trace
  = match getEntry store (collectionName c) (id +:+ "-es") with
    | Some e => (Normal e, trace ++ [(collectionName c, id +:+ "-es")])
    | None =>
        (match getEntry store (collectionName c) id with
         | Some e => Normal e
         | None => Throw (Error (notFoundMessage (collectionName c) id "es"))
         end,
         trace ++ [(collectionName c, id +:+ "-es"); (collectionName c, id)])
    end.
Proof.
  intros Hc Hes. unfold getLocalizedEntry, bind at 1, lift. rewrite Hc, Hes.
  change (String.eqb "es" "es") with true. cbv iota.
  unfold bind, awaitGetEntry, ret, throw.
  destruct (getEntry store (collectionName c) (id +:+ "-es")); [reflexivity|].
  rewrite <- app_assoc.
  destruct (getEntry store (collectionName c) id); reflexivity.
Qed.

(** Under any other locale: the base slug only. *)
Lemma getLocalizedEntry_base (astro : AstroGlobal) (context : RenderContext)
    (c : LocalizableCollection) (id : string) (trace : Trace) :
  getGlobalContext astro = Normal context ->
  code (locale context) <> "es" ->
  getLocalizedEntry store astro c id trace
  = (match getEntry store (collectionName c) id with
     | Some e => Normal e
     | None =>
         Throw (Error (notFoundMessage (collectionName c) id (code (locale context))))
     end,
     trace ++ [(collectionName c, id)]).
Proof.
  intros Hc Hne. unfold getLocalizedEntry, bind at 1, lift. rewrite Hc.
  apply String.eqb_neq in Hne. rewrite Hne.
  unfold bind, awaitGetEntry, ret, throw.
  destruct (getEntry store (collectionName c) id); reflexivity.
Qed.

Lemma getLocalizedEntry_no_context (astro : AstroGlobal)
    (c : LocalizableCollection) (id : string) (trace : Trace) :
  globalContext astro = None ->
  getLocalizedEntry store astro c id trace = (Throw ConfigurationError, trace).
Proof.
  intros Hc. unfold getLocalizedEntry, bind, lift, getGlobalContext. rewrite Hc.
  reflexivity.
Qed.

End ResolverFacts.

(** * The claims about the resolver *)

Section ResolverClaims.
Import Js DateFns Context Content GetContent Samples.

(** C1: under the locale "es", when the store has a record for the slug
    [id-es], the resolver returns that record; under any other locale (the
    primary one among them) it returns the record for the slug [id] when the
    store has one. *)
Theorem localized_override_precedence (store : Store) (astro : AstroGlobal)
    (context : RenderContext) (c : LocalizableCollection) (id : string)
    (trace : Trace) :
  getGlobalContext astro = Normal context ->
  (code (locale context) = "es" ->
   forall e, getEntry store (collectionName c) (id +:+ "-es") = Some e ->
     result (getLocalizedEntry store astro c id) trace = Normal e
     /\ slug e = id +:+ "-es")
  /\ (code (locale context) <> "es" ->
      forall e, getEntry store (collectionName c) id = Some e ->
        result (getLocalizedEntry store astro c id) trace = Normal e
        /\ slug e = id).
Proof.
  intros Hc. split.
  - intros Hes e He. unfold result.
    rewrite (getLocalizedEntry_es _ _ _ _ _ _ Hc Hes), He.
    split; [reflexivity | apply (getEntry_Some _ _ _ _ He)].
  - intros Hne e He. unfold result.
    rewrite (getLocalizedEntry_base _ _ _ _ _ _ Hc Hne), He.
    split; [reflexivity | apply (getEntry_Some _ _ _ _ He)].
Qed.

Lemma localized_override_precedence_witness :
  (result (getLocalizedEntry store (astroOf es) skills "typescript") []
   = Normal (entry "skills" "typescript-es")
   /\ slug (entry "skills" "typescript-es") = "typescript" +:+ "-es")
  /\ (result (getLocalizedEntry store (astroOf enUS) skills "typescript") []
      = Normal (entry "skills" "typescript")
      /\ slug (entry "skills" "typescript") = "typescript").
Proof.
  split.
  - apply (proj1 (localized_override_precedence store (astroOf es) (contextOf es)
                    skills "typescript" [] eq_refl)); reflexivity.
  - apply (proj2 (localized_override_precedence store (astroOf enUS) (contextOf enUS)
                    skills "typescript" [] eq_refl)); [discriminate | reflexivity].
Defined.

(** C2: when the store has a record for the slug [id] and none for [id-es],
    the resolver returns the base record, under "es" as under every other
    locale. *)
Theorem fallback_to_base (store : Store) (astro : AstroGlobal)
    (context : RenderContext) (c : LocalizableCollection) (id : string)
    (trace : Trace) (e : Entry) :
  getGlobalContext astro = Normal context ->
  getEntry store (collectionName c) id = Some e ->
  getEntry store (collectionName c) (id +:+ "-es") = None ->
  result (getLocalizedEntry store astro c id) trace = Normal e /\ slug e = id.
Proof.
  intros Hc Hbase Hes. split; [|apply (getEntry_Some _ _ _ _ Hbase)].
  unfold result.
  destruct (String.eqb_spec (code (locale context)) "es") as [Hcode | Hcode].
  - rewrite (getLocalizedEntry_es _ _ _ _ _ _ Hc Hcode), Hes, Hbase. reflexivity.
  - rewrite (getLocalizedEntry_base _ _ _ _ _ _ Hc Hcode), Hbase. reflexivity.
Qed.

Lemma fallback_to_base_witness :
  (result (getLocalizedEntry store (astroOf es) jobs "senior-developer") []
   = Normal (entry "jobs" "senior-developer")
   /\ slug (entry "jobs" "senior-developer") = "senior-developer")
  /\ (result (getLocalizedEntry store (astroOf enUS) jobs "senior-developer") []
      = Normal (entry "jobs" "senior-developer")
      /\ slug (entry "jobs" "senior-developer") = "senior-developer").
Proof.
  split.
  - apply (fallback_to_base store (astroOf es) (contextOf es) jobs
             "senior-developer" []); reflexivity.
  - apply (fallback_to_base store (astroOf enUS) (contextOf enUS) jobs
             "senior-developer" []); reflexivity.
Defined.

(** C3: when the store has a record neither for [id] nor for [id-es], the
    resolver throws, under every locale, an error whose message spells out
    the collection name, the identifier and the code of the active locale. *)
Theorem missing_entry_fails (store : Store) (astro : AstroGlobal)
    (context : RenderContext) (c : LocalizableCollection) (id : string)
    (trace : Trace) :
  getGlobalContext astro = Normal context ->
  getEntry store (collectionName c) id = None ->
  getEntry store (collectionName c) (id +:+ "-es") = None ->
  result (getLocalizedEntry store astro c id) trace
  = Throw (Error ("Content entry not found: collection="
                  +:+ quote +:+ collectionName c +:+ quote
                  +:+ ", id=" +:+ quote +:+ id +:+ quote
                  +:+ ", locale=" +:+ quote +:+ code (locale context) +:+ quote)).
Proof.
  intros Hc Hbase Hes. unfold result.
  destruct (String.eqb_spec (code (locale context)) "es") as [Hcode | Hcode].
  - rewrite (getLocalizedEntry_es _ _ _ _ _ _ Hc Hcode), Hes, Hbase, Hcode.
    reflexivity.
  - rewrite (getLocalizedEntry_base _ _ _ _ _ _ Hc Hcode), Hbase. reflexivity.
Qed.

Lemma missing_entry_fails_witness :
  result (getLocalizedEntry store (astroOf es) education "bachelor-degree") []
  = Throw (Error ("Content entry not found: collection="
                  +:+ quote +:+ "education" +:+ quote
                  +:+ ", id=" +:+ quote +:+ "bachelor-degree" +:+ quote
                  +:+ ", locale=" +:+ quote +:+ "es" +:+ quote)).
Proof.
  apply (missing_entry_fails store (astroOf es) (contextOf es) education
           "bachelor-degree" []); reflexivity.
Defined.

(** C6: a record returned by the resolver is a record of the store, of the
    requested collection, and its slug is [id] or [id-es]; in particular the
    slug starts with [id]. *)
Theorem resolved_entry_from_store (store : Store) (astro : AstroGlobal)
    (c : LocalizableCollection) (id : string) (trace : Trace) (e : Entry) :
  result (getLocalizedEntry store astro c id) trace = Normal e ->
  (slug e = id \/ slug e = id +:+ "-es")
  /\ String.prefix id (slug e) = true
  /\ In e store
  /\ collection e = collectionName c.
Proof.
  unfold result. intros H.
  destruct (globalContext astro) as [context|] eqn:Ec;
    [|rewrite getLocalizedEntry_no_context in H by exact Ec; discriminate].
  assert (Hc : getGlobalContext astro = Normal context)
    by (unfold getGlobalContext; rewrite Ec; reflexivity).
  assert (Hkey : exists key, (key = id \/ key = id +:+ "-es")
                             /\ getEntry store (collectionName c) key = Some e).
  { destruct (String.eqb_spec (code (locale context)) "es") as [Hcode | Hcode].
    - rewrite (getLocalizedEntry_es _ _ _ _ _ _ Hc Hcode) in H.
      destruct (getEntry store (collectionName c) (id +:+ "-es")) as [e1|] eqn:E1.
      + injection H as <-. eauto.
      + destruct (getEntry store (collectionName c) id) as [e2|] eqn:E2;
          [|discriminate]. injection H as <-. eauto.
    - rewrite (getLocalizedEntry_base _ _ _ _ _ _ Hc Hcode) in H.
      destruct (getEntry store (collectionName c) id) as [e2|] eqn:E2;
        [|discriminate]. injection H as <-. eauto. }
  destruct Hkey as (key & Hk & He).
  apply getEntry_Some in He as (Hin & Hcol & Hslug). rewrite Hslug.
  repeat split; try assumption.
  destruct Hk as [-> | ->]; [apply prefix_refl | apply prefix_append].
Qed.

Lemma resolved_entry_from_store_witness :
  (slug (entry "skills" "typescript-es") = "typescript"
   \/ slug (entry "skills" "typescript-es") = "typescript" +:+ "-es")
  /\ String.prefix "typescript" (slug (entry "skills" "typescript-es")) = true
  /\ In (entry "skills" "typescript-es") store
  /\ collection (entry "skills" "typescript-es") = collectionName skills.
Proof.
  apply (resolved_entry_from_store store (astroOf es) skills "typescript" []).
  reflexivity.
Defined.

(** C8: each of the six named operations is the generic resolver at its own
    collection name. *)
Theorem named_operations (store : Store) (astro : AstroGlobal) (id : string) :
  (getLocalizedSkill store astro id = getLocalizedEntry store astro skills id
   /\ collectionName skills = "skills")
  /\ (getLocalizedJob store astro id = getLocalizedEntry store astro jobs id
      /\ collectionName jobs = "jobs")
  /\ (getLocalizedAchievement store astro id
      = getLocalizedEntry store astro achievements id
      /\ collectionName achievements = "achievements")
  /\ (getLocalizedEducation store astro id
      = getLocalizedEntry store astro education id
      /\ collectionName education = "education")
  /\ (getLocalizedFavorite store astro id
      = getLocalizedEntry store astro favorites id
      /\ collectionName favorites = "favorites")
  /\ (getLocalizedInterest store astro id
      = getLocalizedEntry store astro interests id
      /\ collectionName interests = "interests").
Proof. repeat split. Qed.

(** C9: under a locale whose code is not "es" the resolver makes one lookup,
    for the slug [id], which is not the suffixed slug; it returns the record
    for [id] when the store has one and throws the not-found error when it
    has none, whatever the store holds for [id-es]; a returned record has the
    slug [id]. *)
Theorem other_locale_base_only (store : Store) (astro : AstroGlobal)
    (context : RenderContext) (c : LocalizableCollection) (id : string)
    (trace : Trace) :
  getGlobalContext astro = Normal context ->
  code (locale context) <> "es" ->
  final (getLocalizedEntry store astro c id) trace
  = trace ++ [(collectionName c, id)]
  /\ (collectionName c, id) <> (collectionName c, id +:+ "-es")
  /\ (forall e, getEntry store (collectionName c) id = Some e ->
        result (getLocalizedEntry store astro c id) trace = Normal e)
  /\ (getEntry store (collectionName c) id = None ->
      result (getLocalizedEntry store astro c id) trace
      = Throw (Error (notFoundMessage (collectionName c) id (code (locale context)))))
  /\ (forall e, result (getLocalizedEntry store astro c id) trace = Normal e ->
        slug e = id /\ getEntry store (collectionName c) id = Some e).
Proof.
  intros Hc Hne. unfold final, result.
  rewrite (getLocalizedEntry_base _ _ _ _ _ _ Hc Hne). cbn [fst snd].
  split; [reflexivity|]. split.
  { intros [= H]. symmetry in H. exact (suffixed_neq id H). }
  split; [intros e ->; reflexivity|].
  split; [intros ->; reflexivity|].
  intros e. destruct (getEntry store (collectionName c) id) as [e'|] eqn:E;
    [|discriminate].
  intros [= <-]. split; [apply (getEntry_Some _ _ _ _ E) | reflexivity].
Qed.

Lemma other_locale_base_only_witness :
  final (getLocalizedEntry store (astroOf enUS) interests "photography") []
  = [] ++ [("interests", "photography")]
  /\ result (getLocalizedEntry store (astroOf enUS) interests "photography") []
     = Throw (Error (notFoundMessage "interests" "photography" "en-US"))
  /\ getEntry store "interests" "photography-es"
     = Some (entry "interests" "photography-es")
  /\ result (getLocalizedEntry store (astroOf enUS) skills "typescript") []
     = Normal (entry "skills" "typescript").
Proof.
  destruct (other_locale_base_only store (astroOf enUS) (contextOf enUS) interests
              "photography" [] eq_refl) as (Htrace & _ & _ & Hnone & _);
    [discriminate|].
  destruct (other_locale_base_only store (astroOf enUS) (contextOf enUS) skills
              "typescript" [] eq_refl) as (_ & _ & Hsome & _);
    [discriminate|].
  split; [exact Htrace|]. split; [apply Hnone; reflexivity|].
  split; [reflexivity|]. apply Hsome. reflexivity.
Defined.

End ResolverClaims.

(** * More about the date formatter *)

Section DateExtras.
Import Js EcmaDate DateObject DateFns Context FormatDate TimeValues Samples.
Local Open Scope Z_scope.





Lemma fresh_neq (h : Heap) (date : ref) (x : Number) :
  h !! date = Some x -> fresh (dom h) <> date.
Proof.
  intros Hd E. rewrite <- E, fresh_not_allocated in Hd. discriminate.
Qed.







(** X3: an invalid [Date] (time value NaN) is not re-anchored: the
    normalization returns the same object and leaves the heap as it is, and
    [formatDate] hands NaN to the backend, which the numeric backend refuses
    with a RangeError. *)
Theorem invalid_date_passthrough (tza : LocalTZA) (format : Backend) (h : Heap)
    (date : ref) (astro : AstroGlobal) (context : RenderContext) :
  h !! date = Some NaN ->
  getGlobalContext astro = Normal context ->
  normalizeDateOnlyToLocal tza date h = (Normal date, h)
  /\ formatDate tza format date astro h
     = (format tza NaN (dateFormat context) (locale context), h)
  /\ formatDate tza formatNumeric date astro h
     = (Throw (RangeError "Invalid time value"), h).
Proof.
  intros Hd Hc. split; [|split].
  - rewrite (normalize_run _ _ _ _ Hd). reflexivity.
  - rewrite (formatDate_run _ _ _ _ _ _ _ Hc Hd). reflexivity.
  - rewrite (formatDate_run _ _ _ _ _ _ _ Hc Hd). reflexivity.
Qed.

Lemma invalid_date_passthrough_witness :
  normalizeDateOnlyToLocal madrid 1%positive {[ 1%positive := NaN ]}
  = (Normal 1%positive, {[ 1%positive := NaN ]})
  /\ formatDate madrid formatNumeric 1%positive (astroOf es) {[ 1%positive := NaN ]}
     = (formatNumeric madrid NaN (dateFormat (contextOf es)) (locale (contextOf es)),
        {[ 1%positive := NaN ]})
  /\ formatDate madrid formatNumeric 1%positive (astroOf es) {[ 1%positive := NaN ]}
     = (Throw (RangeError "Invalid time value"), {[ 1%positive := NaN ]}).
Proof.
  apply (invalid_date_passthrough madrid formatNumeric {[ 1%positive := NaN ]}
           1%positive (astroOf es) (contextOf es)).
  - apply lookup_singleton_eq.
  - reflexivity.
Defined.

(** X4: the normalization returns a new object exactly when all four UTC
    time fields of its argument are zero, and then the heap has grown by that
    one object; otherwise it returns its argument and the heap is the same. *)
Theorem normalize_allocates_iff_midnight (tza : LocalTZA) (h : Heap) (date : ref)
    (t : Z) :
  h !! date = Some (Some t) ->
  exists (d' : ref) (h' : Heap),
    normalizeDateOnlyToLocal tza date h = (Normal d', h')
    /\ (d' <> date <->
        HourFromTime t = 0 /\ MinFromTime t = 0 /\ SecFromTime t = 0
        /\ msFromTime t = 0)
    /\ (d' = date -> h' = h)
    /\ (d' <> date -> h !! d' = None /\ dom h' = {[ d' ]} ∪ dom h).
Proof.
  intros Hd. rewrite (normalize_run _ _ _ _ Hd).
  pose proof (fresh_not_allocated h) as Hfresh.
  pose proof (fresh_neq h date _ Hd) as Hne.
  destruct (midnightUtc (Some t)) eqn:E.
  - eexists _, _. split; [reflexivity|]. split; [|split].
    + split; [intros _; apply midnight_fields, midnightUtc_mod, E | intros _; exact Hne].
    + intros Heq. contradiction.
    + intros _. split; [exact Hfresh | apply dom_insert_L].
  - exists date, h. split; [reflexivity|]. split; [|split].
    + split; [contradiction|]. intros Hz.
      apply midnight_fields, midnightUtc_mod in Hz. congruence.
    + reflexivity.
    + contradiction.
Qed.

Lemma normalize_allocates_iff_midnight_witness :
  exists (d' : ref) (h' : Heap),
    normalizeDateOnlyToLocal madrid 1%positive {[ 1%positive := Some instant_2024_03_15 ]}
    = (Normal d', h')
    /\ (d' <> 1%positive <->
        HourFromTime instant_2024_03_15 = 0 /\ MinFromTime instant_2024_03_15 = 0
        /\ SecFromTime instant_2024_03_15 = 0 /\ msFromTime instant_2024_03_15 = 0)
    /\ (d' = 1%positive -> h' = {[ 1%positive := Some instant_2024_03_15 ]})
    /\ (d' <> 1%positive ->
        ({[ 1%positive := Some instant_2024_03_15 ]} : Heap) !! d' = None
        /\ dom h' = {[ d' ]} ∪ dom ({[ 1%positive := Some instant_2024_03_15 ]} : Heap)).
Proof.
  apply (normalize_allocates_iff_midnight madrid
           {[ 1%positive := Some instant_2024_03_15 ]} 1%positive instant_2024_03_15).
  apply lookup_singleton_eq.
Defined.



End DateExtras.

(** * More about the resolver *)

Section ResolverExtras.
Import Js DateFns Context Content GetContent Samples.

Lemma context_cases (astro : AstroGlobal) :
  (exists context, getGlobalContext astro = Normal context)
  \/ globalContext astro = None.
Proof.
  unfold getGlobalContext. destruct (globalContext astro); eauto.
Qed.

(** A returned record is what the store answers for [id] or [id-es]. *)
Lemma resolved_key (store : Store) (astro : AstroGlobal)
    (c : LocalizableCollection) (id : string) (trace : Trace) (e : Entry) :
  result (getLocalizedEntry store astro c id) trace = Normal e ->
  exists key, (key = id \/ key = id +:+ "-es")
              /\ getEntry store (collectionName c) key = Some e.
Proof.
  unfold result. intros H.
  destruct (context_cases astro) as [[context Hc] | Hc];
    [|rewrite getLocalizedEntry_no_context in H by exact Hc; discriminate].
  destruct (String.eqb_spec (code (locale context)) "es") as [Hcode | Hcode].
  - rewrite (getLocalizedEntry_es _ _ _ _ _ _ Hc Hcode) in H.
    destruct (getEntry store (collectionName c) (id +:+ "-es")) as [e1|] eqn:E1.
    + injection H as <-. eauto.
    + destruct (getEntry store (collectionName c) id) as [e2|] eqn:E2;
        [|discriminate]. injection H as <-. eauto.
  - rewrite (getLocalizedEntry_base _ _ _ _ _ _ Hc Hcode) in H.
    destruct (getEntry store (collectionName c) id) as [e2|] eqn:E2;
      [|discriminate]. injection H as <-. eauto.
Qed.

Lemma getEntry_skip (s1 s2 : Store) (x : Entry) (name key : string) :
  hasKey name key x = false ->
  getEntry (s1 ++ x :: s2) name key = getEntry (s1 ++ s2) name key.
Proof.
  intros Hx. unfold getEntry. induction s1 as [|y s1 IH]; simpl.
  - rewrite Hx. reflexivity.
  - destruct (hasKey name key y); [reflexivity | exact IH].
Qed.

(** X6: under the locale "es" the suffixed slug is looked up first, and the
    base slug is looked up after it exactly when the suffixed lookup found
    nothing; the lookups made before are kept. *)
Theorem lookups_under_es (store : Store) (astro : AstroGlobal)
    (context : RenderContext) (c : LocalizableCollection) (id : string)
    (trace : Trace) :
  getGlobalContext astro = Normal context ->
  code (locale context) = "es" ->
  final (getLocalizedEntry store astro c id) trace
  = trace ++ (collectionName c, id +:+ "-es")
      :: match getEntry store (collectionName c) (id +:+ "-es") with
         | Some _ => []
         | None => [(collectionName c, id)]
         end.
Proof.
  intros Hc Hes. unfold final. rewrite (getLocalizedEntry_es _ _ _ _ _ _ Hc Hes).
  destruct (getEntry store (collectionName c) (id +:+ "-es")); reflexivity.
Qed.

Lemma lookups_under_es_witness :
  final (getLocalizedEntry store (astroOf es) jobs "senior-developer")
    [("skills", "typescript-es")]
  = [("skills", "typescript-es")]
    ++ (collectionName jobs, "senior-developer" +:+ "-es")
       :: match getEntry store (collectionName jobs) ("senior-developer" +:+ "-es") with
          | Some _ => []
          | None => [(collectionName jobs, "senior-developer")]
          end.
Proof.
  apply (lookups_under_es store (astroOf es) (contextOf es) jobs "senior-developer"
           [("skills", "typescript-es")]); reflexivity.
Defined.

(** X7: the suffix is part of the slug, so an override is also a base record:
    when the store has a record for [id-es], resolving [id] under "es" and
    resolving the identifier [id-es] under another locale return the same
    record. *)
Theorem override_is_base_of_suffixed_id (store : Store) (astro astro' : AstroGlobal)
    (context context' : RenderContext) (c : LocalizableCollection) (id : string)
    (trace trace' : Trace) (e : Entry) :
  getGlobalContext astro = Normal context ->
  getGlobalContext astro' = Normal context' ->
  code (locale context) = "es" ->
  code (locale context') <> "es" ->
  getEntry store (collectionName c) (id +:+ "-es") = Some e ->
  result (getLocalizedEntry store astro c id) trace = Normal e
  /\ result (getLocalizedEntry store astro' c (id +:+ "-es")) trace' = Normal e.
Proof.
  intros Hc Hc' Hes Hne He. unfold result.
  rewrite (getLocalizedEntry_es _ _ _ _ _ _ Hc Hes), He.
  rewrite (getLocalizedEntry_base _ _ _ _ _ _ Hc' Hne), He. split; reflexivity.
Qed.

Lemma override_is_base_of_suffixed_id_witness :
  result (getLocalizedEntry store (astroOf es) interests "photography") []
  = Normal (entry "interests" "photography-es")
  /\ result (getLocalizedEntry store (astroOf enUS) interests ("photography" +:+ "-es")) []
     = Normal (entry "interests" "photography-es").
Proof.
  apply (override_is_base_of_suffixed_id store (astroOf es) (astroOf enUS)
           (contextOf es) (contextOf enUS) interests "photography" [] []);
    try reflexivity.
  discriminate.
Defined.

(** X8: a record of another collection, or with a slug that is neither [id]
    nor [id-es], makes no difference: with or without it in the store, the
    resolver ends the same way after the same lookups. *)
Theorem unrelated_record_irrelevant (s1 s2 : Store) (x : Entry)
    (astro : AstroGlobal) (c : LocalizableCollection) (id : string) (trace : Trace) :
  collection x <> collectionName c \/ (slug x <> id /\ slug x <> id +:+ "-es") ->
  getLocalizedEntry (s1 ++ x :: s2) astro c id trace
  = getLocalizedEntry (s1 ++ s2) astro c id trace.
Proof.
  intros Hx.
  assert (Hkey : forall key, key = id \/ key = id +:+ "-es" ->
                   hasKey (collectionName c) key x = false).
  { intros key Hk. unfold hasKey. apply andb_false_iff.
    destruct Hx as [Hcol | [Hs1 Hs2]].
    - left. apply String.eqb_neq, Hcol.
    - right. apply String.eqb_neq. destruct Hk as [-> | ->]; assumption. }
  destruct (context_cases astro) as [[context Hc] | Hc];
    [|rewrite !getLocalizedEntry_no_context by exact Hc; reflexivity].
  destruct (String.eqb_spec (code (locale context)) "es") as [Hcode | Hcode].
  - rewrite !(getLocalizedEntry_es _ _ _ _ _ _ Hc Hcode).
    rewrite !getEntry_skip by (apply Hkey; auto). reflexivity.
  - rewrite !(getLocalizedEntry_base _ _ _ _ _ _ Hc Hcode).
    rewrite !getEntry_skip by (apply Hkey; auto). reflexivity.
Qed.

Lemma unrelated_record_irrelevant_witness :
  getLocalizedEntry ([entry "skills" "typescript"] ++ entry "jobs" "typescript-es"
                       :: [entry "skills" "rust"]) (astroOf es) skills "typescript" []
  = getLocalizedEntry ([entry "skills" "typescript"] ++ [entry "skills" "rust"])
      (astroOf es) skills "typescript" [].
Proof.
  apply (unrelated_record_irrelevant [entry "skills" "typescript"]
           [entry "skills" "rust"] (entry "jobs" "typescript-es") (astroOf es)
           skills "typescript" []).
  left. discriminate.
Defined.

(** X9: each named operation returns records of its own collection only,
    taken from the store. *)
Theorem named_operations_own_collection (store : Store) (astro : AstroGlobal)
    (id : string) (trace : Trace) (e : Entry) :
  (result (getLocalizedSkill store astro id) trace = Normal e ->
   collection e = "skills" /\ In e store)
  /\ (result (getLocalizedJob store astro id) trace = Normal e ->
      collection e = "jobs" /\ In e store)
  /\ (result (getLocalizedAchievement store astro id) trace = Normal e ->
      collection e = "achievements" /\ In e store)
  /\ (result (getLocalizedEducation store astro id) trace = Normal e ->
      collection e = "education" /\ In e store)
  /\ (result (getLocalizedFavorite store astro id) trace = Normal e ->
      collection e = "favorites" /\ In e store)
  /\ (result (getLocalizedInterest store astro id) trace = Normal e ->
      collection e = "interests" /\ In e store).
Proof.
  assert (H : forall c, result (getLocalizedEntry store astro c id) trace = Normal e ->
                collection e = collectionName c /\ In e store).
  { intros c Hr. apply resolved_key in Hr as (key & _ & He).
    apply getEntry_Some in He. tauto. }
  repeat match goal with |- _ /\ _ => split end; intros Hr;
    first [ apply (H skills Hr) | apply (H jobs Hr) | apply (H achievements Hr)
          | apply (H education Hr) | apply (H favorites Hr) | apply (H interests Hr) ].
Qed.

Lemma named_operations_own_collection_witness :
  collection (entry "jobs" "senior-developer") = "jobs"
  /\ In (entry "jobs" "senior-developer") store.
Proof.
  apply (proj1 (proj2 (named_operations_own_collection store (astroOf es)
                         "senior-developer" [] (entry "jobs" "senior-developer")))).
  reflexivity.
Defined.

(** X10: without a render context nothing is looked up and no [Date] is
    made: the resolver, [getTranslation] and [formatDate] all fail with the
    configuration error, the lookups made before and the heap being as they
    were. *)
Theorem no_context_fails_first (store : Store) (astro : AstroGlobal)
    (c : LocalizableCollection) (id : string) (trace : Trace)
    (tza : EcmaDate.LocalTZA) (format : Backend) (date : DateObject.ref)
    (h : DateObject.Heap) :
  globalContext astro = None ->
  getLocalizedEntry store astro c id trace = (Throw ConfigurationError, trace)
  /\ getTranslation astro = Throw ConfigurationError
  /\ FormatDate.formatDate tza format date astro h = (Throw ConfigurationError, h).
Proof.
  intros Hc. split; [apply getLocalizedEntry_no_context, Hc|].
  split; [|apply formatDate_no_context, Hc].
  unfold getTranslation, getGlobalContext. rewrite Hc. reflexivity.
Qed.

Lemma no_context_fails_first_witness :
  getLocalizedEntry store {| globalContext := None |} skills "typescript" []
  = (Throw ConfigurationError, [])
  /\ getTranslation {| globalContext := None |} = Throw ConfigurationError
  /\ FormatDate.formatDate madrid formatNumeric 1%positive {| globalContext := None |}
       {[ 1%positive := Some day_2024_03_15 ]}
     = (Throw ConfigurationError, {[ 1%positive := Some day_2024_03_15 ]}).
Proof.
  apply (no_context_fails_first store {| globalContext := None |} skills
           "typescript" [] madrid formatNumeric 1%positive
           {[ 1%positive := Some day_2024_03_15 ]}).
  reflexivity.
Defined.

End ResolverExtras.

(** * The site URL and the clean-up after a build *)

Section ConfigExtras.
Import Process AstroConfig.

Lemma truthy_nonempty (v : option string) :
  truthy v = true <-> exists s, v = Some s /\ s <> EmptyString.
Proof.
  split.
  - destruct v as [[|a s]|]; try discriminate. intros _. eexists. split; [reflexivity|].
    discriminate.
  - intros (s & -> & Hs). destruct s; [contradiction | reflexivity].
Qed.

(** X11: a non-empty [ASTRO_SITE] is the site URL, whatever else is set; no
    line is written and the process goes on. *)
Theorem astro_site_overrides (env : Env) (out : Console) (url : string) :
  env !! "ASTRO_SITE" = Some url -> url <> EmptyString ->
  getSiteUrl env out = (Returned (Some url), out).
Proof.
  intros Hu Hne. unfold getSiteUrl.
  rewrite (proj2 (truthy_nonempty _) (ex_intro _ url (conj Hu Hne))), Hu.
  reflexivity.
Qed.

Lemma astro_site_overrides_witness :
  getSiteUrl (<["ASTRO_SITE" := "https://cv.example.org"]>
                (<["NETLIFY" := "true"]> (<["CI" := "1"]> ∅))) []
  = (Returned (Some "https://cv.example.org"), []).
Proof.
  apply (astro_site_overrides _ [] "https://cv.example.org").
  - reflexivity.
  - discriminate.
Defined.

(** The condition under which [getSiteUrl] gives up. *)
Lemma getSiteUrl_else (env : Env) (out : Console) :
  truthy (env !! "ASTRO_SITE") = false -> truthy (env !! "NETLIFY") = false ->
  truthy (env !! "RENDER") = false -> truthy (env !! "CF_PAGES") = false ->
  getSiteUrl env out
  = if truthy (env !! "CI") && negb (strictEq (env !! "CI_CHECKS") "true")
    then (Exited 1%Z,
          out ++ ["Site URL not not found. Please set the ASTRO_SITE environment variable."])
    else (Returned (Some "http://localhost:4321"), out).
Proof.
  intros H1 H2 H3 H4. unfold getSiteUrl. rewrite H1, H2, H3, H4.
  destruct (truthy (env !! "CI") && negb (strictEq (env !! "CI_CHECKS") "true"));
    reflexivity.
Qed.

Lemma strictEq_true (v : option string) (literal : string) :
  strictEq v literal = true <-> v = Some literal.
Proof.
  unfold strictEq. destruct v as [s|]; [|split; discriminate].
  rewrite String.eqb_eq. split; [intros ->; reflexivity | intros [= ->]; reflexivity].
Qed.

(** X12: [getSiteUrl] ends the process, with code 1 and after one line on
    the error console, exactly when none of [ASTRO_SITE], [NETLIFY],
    [RENDER], [CF_PAGES] is set to a non-empty value, [CI] is, and
    [CI_CHECKS] is not the string "true"; in every other case it returns
    and writes nothing. *)
Theorem site_url_exit_iff (env : Env) (out : Console) :
  let gives_up :=
    truthy (env !! "ASTRO_SITE") = false /\ truthy (env !! "NETLIFY") = false
    /\ truthy (env !! "RENDER") = false /\ truthy (env !! "CF_PAGES") = false
    /\ truthy (env !! "CI") = true /\ env !! "CI_CHECKS" <> Some "true" in
  (gives_up ->
   getSiteUrl env out
   = (Exited 1%Z,
      out ++ ["Site URL not not found. Please set the ASTRO_SITE environment variable."]))
  /\ (~ gives_up -> exists url, getSiteUrl env out = (Returned url, out)).
Proof.
  cbv zeta. split.
  - intros (H1 & H2 & H3 & H4 & H5 & H6).
    rewrite getSiteUrl_else by assumption. rewrite H5.
    destruct (strictEq (env !! "CI_CHECKS") "true") eqn:E; [|reflexivity].
    apply strictEq_true in E. contradiction.
  - intros Hno. unfold getSiteUrl.
    destruct (truthy (env !! "ASTRO_SITE")) eqn:H1; [eexists; reflexivity|].
    destruct (truthy (env !! "NETLIFY")) eqn:H2; [eexists; reflexivity|].
    destruct (truthy (env !! "RENDER")) eqn:H3; [eexists; reflexivity|].
    destruct (truthy (env !! "CF_PAGES")) eqn:H4; [eexists; reflexivity|].
    destruct (truthy (env !! "CI")) eqn:H5; [|eexists; reflexivity].
    destruct (strictEq (env !! "CI_CHECKS") "true") eqn:E; [eexists; reflexivity|].
    exfalso. apply Hno. repeat split; try reflexivity.
    intros H. apply strictEq_true in H. congruence.
Qed.

Lemma site_url_exit_iff_witness :
  getSiteUrl (<["CI" := "true"]> (<["ASTRO_SITE" := EmptyString]> ∅)) []
  = (Exited 1%Z,
     [] ++ ["Site URL not not found. Please set the ASTRO_SITE environment variable."])
  /\ exists url,
       getSiteUrl (<["CI" := "true"]> (<["CI_CHECKS" := "true"]> ∅)) []
       = (Returned url, []).
Proof.
  split.
  - apply (proj1 (site_url_exit_iff
                    (<["CI" := "true"]> (<["ASTRO_SITE" := EmptyString]> ∅)) [])).
    repeat split; try reflexivity. discriminate.
  - apply (proj2 (site_url_exit_iff
                    (<["CI" := "true"]> (<["CI_CHECKS" := "true"]> ∅)) [])).
    intros (_ & _ & _ & _ & _ & H). apply H. reflexivity.
Defined.

(** X13: with none of the platform flags [NETLIFY], [RENDER], [CF_PAGES]
    set to a non-empty value, a site URL that [getSiteUrl] returns is a
    non-empty string: it is never [undefined] and never empty. *)
Theorem site_url_defined_off_platform (env : Env) (out out' : Console)
    (url : option string) :
  truthy (env !! "NETLIFY") = false -> truthy (env !! "RENDER") = false ->
  truthy (env !! "CF_PAGES") = false ->
  getSiteUrl env out = (Returned url, out') ->
  exists s, url = Some s /\ s <> EmptyString.
Proof.
  intros H2 H3 H4. unfold getSiteUrl. rewrite H2, H3, H4.
  destruct (truthy (env !! "ASTRO_SITE")) eqn:H1.
  - intros [= <- _]. apply truthy_nonempty, H1.
  - destruct (truthy (env !! "CI") && negb (strictEq (env !! "CI_CHECKS") "true"));
      [discriminate|].
    intros [= <- _]. eexists. split; [reflexivity | discriminate].
Qed.

Lemma site_url_defined_off_platform_witness :
  exists s, Some "http://localhost:4321" = Some s /\ s <> EmptyString.
Proof.
  apply (site_url_defined_off_platform ∅ [] [] (Some "http://localhost:4321"));
    reflexivity.
Defined.

(** On a platform whose URL variable is not set, the site URL is
    [undefined]. *)
Example site_url_undefined_on_netlify :
  getSiteUrl (<["NETLIFY" := "true"]> ∅) [] = (Returned None, []).
Proof. reflexivity. Qed.

Lemma removeIfExists_run (path : Path) (fs : FileSystem) :
  removeIfExists path fs
  = (Returned tt,
     if bool_decide (path ∈ fs) then filter (fun p => ¬ (path `prefix_of` p)) fs else fs).
Proof.
  unfold removeIfExists, bind, existsSync, rm_recursive, ret.
  destruct (bool_decide (path ∈ fs)) eqn:E; [rewrite E|]; reflexivity.
Qed.


(** X15: removing twice is removing once. *)
Theorem removeIfExists_idempotent (path : Path) (fs : FileSystem) :
  forall fs' : FileSystem,
    removeIfExists path fs = (Returned tt, fs') ->
    removeIfExists path fs' = (Returned tt, fs').
Proof.
  intros fs' H. rewrite removeIfExists_run in H. injection H as <-.
  rewrite removeIfExists_run.
  assert (Hout : path ∉ (if bool_decide (path ∈ fs)
                         then filter (fun p => ¬ (path `prefix_of` p)) fs else fs)).
  { case_bool_decide as Hin; [|exact Hin].
    intros H. apply elem_of_filter in H as [H _]. apply H. reflexivity. }
  rewrite (bool_decide_eq_false_2 _ Hout). reflexivity.
Qed.

Lemma removeIfExists_idempotent_witness :
  removeIfExists ["dist"; "og"]
    (snd (removeIfExists ["dist"; "og"] {[ ["dist"]; ["dist"; "og"]; ["dist"; "og"; "a.png"] ]}))
  = (Returned tt,
     snd (removeIfExists ["dist"; "og"] {[ ["dist"]; ["dist"; "og"]; ["dist"; "og"; "a.png"] ]})).
Proof.
  apply (removeIfExists_idempotent ["dist"; "og"]
           {[ ["dist"]; ["dist"; "og"]; ["dist"; "og"; "a.png"] ]}).
  rewrite removeIfExists_run. reflexivity.
Defined.





End ConfigExtras.

(** * The lint configuration: [withAstroFiles] *)

Section EslintExtras.
Import Js EslintConfig.

Lemma includes_In (array : list string) (x : string) :
  includes array x = true <-> In x array.
Proof.
  unfold includes. rewrite existsb_exists. split.
  - intros (y & Hin & Heq). apply String.eqb_eq in Heq. subst. exact Hin.
  - intros Hin. exists x. split; [exact Hin | apply String.eqb_refl].
Qed.

Lemma withGlob_includes (array : list string) :
  includes (withGlob array) astroGlob = true.
Proof.
  unfold withGlob. destruct (includes array astroGlob) eqn:E; simpl; [exact E|].
  apply includes_In, in_or_app. right. left. reflexivity.
Qed.

Lemma withGlob_idempotent (array : list string) :
  withGlob (withGlob array) = withGlob array.
Proof.
  unfold withGlob at 1. rewrite withGlob_includes. reflexivity.
Qed.

Lemma withAstroFiles_run (config : Config) (h : Arrays) (r : positive)
    (array : list string) :
  files config = Some r -> h !! r = Some array ->
  withAstroFiles config h = (Normal config, <[r := withGlob array]> h).
Proof.
  intros Hf Hr. unfold withAstroFiles, withGlob. rewrite Hf, Hr.
  destruct (includes array astroGlob); simpl; [|reflexivity].
  rewrite insert_id by exact Hr. reflexivity.
Qed.

(** X17: [withAstroFiles] returns the configuration it was given.  When the
    configuration has a [files] array, that array contains the Astro pattern
    afterwards: the patterns it had are kept, in order, the Astro pattern is
    added at the end only when it was missing, and no other array changes.
    A configuration without [files] is left alone. *)
Theorem withAstroFiles_adds_pattern (config : Config) (h : Arrays) :
  (files config = None -> withAstroFiles config h = (Normal config, h))
  /\ (forall r array,
        files config = Some r -> h !! r = Some array ->
        exists array',
          withAstroFiles config h = (Normal config, <[r := array']> h)
          /\ In astroGlob array'
          /\ (In astroGlob array -> array' = array)
          /\ (~ In astroGlob array -> array' = array ++ [astroGlob])).
Proof.
  split.
  - intros Hf. unfold withAstroFiles. rewrite Hf. reflexivity.
  - intros r array Hf Hr. exists (withGlob array).
    split; [apply withAstroFiles_run; assumption|].
    split; [apply includes_In, withGlob_includes|].
    unfold withGlob. destruct (includes array astroGlob) eqn:E; simpl.
    + split; [reflexivity|]. intros Hn. apply includes_In in E. contradiction.
    + split; [|reflexivity]. intros Hin. apply includes_In in Hin. congruence.
Qed.

Lemma withAstroFiles_adds_pattern_witness :
  withAstroFiles {| name := "prettier"; files := None |} {[ 1%positive := ["**/*.ts"] ]}
  = (Normal {| name := "prettier"; files := None |}, {[ 1%positive := ["**/*.ts"] ]})
  /\ exists array',
       withAstroFiles {| name := "typescript-eslint/base"; files := Some 1%positive |}
         {[ 1%positive := ["**/*.ts"] ]}
       = (Normal {| name := "typescript-eslint/base"; files := Some 1%positive |},
          <[1%positive := array']> {[ 1%positive := ["**/*.ts"] ]})
       /\ In astroGlob array'
       /\ (In astroGlob ["**/*.ts"] -> array' = ["**/*.ts"])
       /\ (~ In astroGlob ["**/*.ts"] -> array' = ["**/*.ts"] ++ [astroGlob]).
Proof.
  split.
  - apply (proj1 (withAstroFiles_adds_pattern {| name := "prettier"; files := None |}
                    {[ 1%positive := ["**/*.ts"] ]})).
    reflexivity.
  - apply (proj2 (withAstroFiles_adds_pattern
                    {| name := "typescript-eslint/base"; files := Some 1%positive |}
                    {[ 1%positive := ["**/*.ts"] ]})).
    + reflexivity.
    + apply lookup_singleton_eq.
Defined.

(** X18: applying [withAstroFiles] to its own result changes nothing. *)
Theorem withAstroFiles_idempotent (config config' : Config) (h h' : Arrays) :
  withAstroFiles config h = (Normal config', h') ->
  withAstroFiles config' h' = (Normal config', h').
Proof.
  unfold withAstroFiles at 1.
  destruct (files config) as [r|] eqn:Hf.
  - destruct (h !! r) as [array|] eqn:Hr; [|discriminate].
    intros H.
    assert (H' : (Normal config, <[r := withGlob array]> h) = (Normal config', h')).
    { rewrite <- H. unfold withGlob. destruct (includes array astroGlob); simpl;
        [rewrite insert_id by exact Hr|]; reflexivity. }
    injection H' as <- <-.
    rewrite (withAstroFiles_run config _ r (withGlob array) Hf (lookup_insert_eq _ _ _)).
    rewrite withGlob_idempotent, insert_insert_eq. reflexivity.
  - intros [= <- <-]. unfold withAstroFiles. rewrite Hf. reflexivity.
Qed.

Lemma withAstroFiles_idempotent_witness :
  withAstroFiles {| name := "typescript-eslint/base"; files := Some 1%positive |}
    (<[1%positive := withGlob ["**/*.ts"]]> {[ 1%positive := ["**/*.ts"] ]})
  = (Normal {| name := "typescript-eslint/base"; files := Some 1%positive |},
     <[1%positive := withGlob ["**/*.ts"]]> {[ 1%positive := ["**/*.ts"] ]}).
Proof.
  apply (withAstroFiles_idempotent
           {| name := "typescript-eslint/base"; files := Some 1%positive |} _
           {[ 1%positive := ["**/*.ts"] ]}).
  apply withAstroFiles_run; [reflexivity | apply lookup_singleton_eq].
Defined.

(** X19: mapping [withAstroFiles] over configurations whose [files] arrays
    exist returns the same configurations; every array that one of them
    refers to gets the Astro pattern once if it lacked it, also when several
    configurations share the array, and every other array is unchanged. *)
Theorem mapWithAstroFiles_shared (configs : list Config) (h : Arrays) :
  (forall config r, In config configs -> files config = Some r -> is_Some (h !! r)) ->
  exists h' : Arrays,
    mapWithAstroFiles configs h = (Normal configs, h')
    /\ (forall r array, In (Some r) (map files configs) -> h !! r = Some array ->
          h' !! r = Some (withGlob array))
    /\ (forall r, ~ In (Some r) (map files configs) -> h' !! r = h !! r).
Proof.
  revert h. induction configs as [|config rest IH]; intros h Halloc.
  - exists h. split; [reflexivity|]. split; [intros r array []|reflexivity].
  - assert (Hstep : exists h1 : Arrays,
              withAstroFiles config h = (Normal config, h1)
              /\ (forall r, h1 !! r
                    = if decide (files config = Some r)
                      then withGlob <$> h !! r else h !! r)).
    { destruct (files config) as [r0|] eqn:Hf.
      - destruct (Halloc config r0 (or_introl eq_refl) Hf) as [array Hr].
        exists (<[r0 := withGlob array]> h).
        split; [apply withAstroFiles_run; assumption|].
        intros r. destruct (decide (Some r0 = Some r)) as [[= <-] | Hne].
        + rewrite lookup_insert_eq, Hr. reflexivity.
        + rewrite lookup_insert_ne by congruence. reflexivity.
      - exists h. split; [unfold withAstroFiles; rewrite Hf; reflexivity|].
        intros r. destruct (decide (None = Some r)); [discriminate | reflexivity]. }
    destruct Hstep as (h1 & Hrun & Hh1).
    destruct (IH h1) as (h' & Hrest & Href & Hother).
    { intros c r Hin Hf. rewrite Hh1.
      destruct (Halloc c r (or_intror Hin) Hf) as [array Hr]. rewrite Hr.
      destruct (decide (files config = Some r)); simpl; eauto. }
    exists h'. split; [|split].
    + cbn [mapWithAstroFiles]. unfold bind at 1. rewrite Hrun.
      unfold bind at 1. rewrite Hrest. reflexivity.
    + intros r array Hin Hr. cbn [map] in Hin.
      destruct (in_dec (option_eq_dec) (Some r) (map files rest)) as [Hrest_in | Hnot].
      * assert (Hr1 : h1 !! r = Some (if decide (files config = Some r)
                                      then withGlob array else array)).
        { rewrite Hh1, Hr. destruct (decide (files config = Some r)); reflexivity. }
        rewrite (Href r _ Hrest_in Hr1).
        destruct (decide (files config = Some r));
          [rewrite withGlob_idempotent|]; reflexivity.
      * rewrite (Hother r Hnot), Hh1, Hr.
        destruct Hin as [Hhead | Hin]; [|contradiction].
        destruct (decide (files config = Some r)); [reflexivity | contradiction].
    + intros r Hnot. cbn [map] in Hnot.
      rewrite Hother by (intros Hin; apply Hnot; right; exact Hin).
      rewrite Hh1. destruct (decide (files config = Some r)) as [Heq|]; [|reflexivity].
      exfalso. apply Hnot. left. exact Heq.
Qed.

Lemma mapWithAstroFiles_shared_witness :
  exists h' : Arrays,
    mapWithAstroFiles
      [ {| name := "typescript-eslint/base"; files := Some 1%positive |};
        {| name := "typescript-eslint/eslint-recommended"; files := Some 1%positive |};
        {| name := "typescript-eslint/recommended"; files := None |} ]
      {[ 1%positive := ["**/*.ts"; "**/*.tsx"] ]}
    = (Normal
         [ {| name := "typescript-eslint/base"; files := Some 1%positive |};
           {| name := "typescript-eslint/eslint-recommended"; files := Some 1%positive |};
           {| name := "typescript-eslint/recommended"; files := None |} ], h')
    /\ (forall r array,
          In (Some r)
            (map files
               [ {| name := "typescript-eslint/base"; files := Some 1%positive |};
                 {| name := "typescript-eslint/eslint-recommended";
                    files := Some 1%positive |};
                 {| name := "typescript-eslint/recommended"; files := None |} ]) ->
          ({[ 1%positive := ["**/*.ts"; "**/*.tsx"] ]} : Arrays) !! r = Some array ->
          h' !! r = Some (withGlob array))
    /\ (forall r,
          ~ In (Some r)
              (map files
                 [ {| name := "typescript-eslint/base"; files := Some 1%positive |};
                   {| name := "typescript-eslint/eslint-recommended";
                      files := Some 1%positive |};
                   {| name := "typescript-eslint/recommended"; files := None |} ]) ->
          h' !! r = ({[ 1%positive := ["**/*.ts"; "**/*.tsx"] ]} : Arrays) !! r).
Proof.
  apply (mapWithAstroFiles_shared _ {[ 1%positive := ["**/*.ts"; "**/*.tsx"] ]}).
  intros config r [<- | [<- | [<- | []]]]; simpl; intros [= <-];
    exists ["**/*.ts"; "**/*.tsx"]; apply lookup_singleton_eq.
Defined.

End EslintExtras.

(** * The CLI commands *)

Section CliExtras.
Import Process Cli.

Variable World : Type.
Variable helper : Call -> World -> Js.Completion unit * World.

Lemma call_outcome (c : Call) (st : State World) :
  exists (o : Outcome unit) (w : World),
    call World helper c st = (o, (w, snd st ++ [c]))
    /\ (o = Returned tt \/ exists e, o = Thrown e).
Proof.
  unfold call. destruct (helper c (fst st)) as [[[]|e] w]; eauto 6.
Qed.

(** A sequence of calls stops at the first call that throws. *)
Lemma callAll_outcome (cs : list Call) (st st' : State World) (o : Outcome unit) :
  callAll World helper cs st = (o, st') ->
  (o = Returned tt /\ snd st' = snd st ++ cs)
  \/ (exists e pre c post,
        o = Thrown e /\ cs = pre ++ c :: post /\ snd st' = snd st ++ pre ++ [c]).
Proof.
  revert st. induction cs as [|c rest IH]; intros st H.
  - injection H as <- <-. left. rewrite app_nil_r. auto.
  - cbn [callAll] in H. unfold bind in H.
    destruct (call_outcome c st) as (o1 & w & Hc & Ho1). rewrite Hc in H.
    destruct Ho1 as [-> | [e ->]].
    + apply IH in H. cbn [snd] in H.
      destruct H as [[-> Hlog] | (e & pre & c' & post & -> & -> & Hlog)].
      * left. split; [reflexivity|]. rewrite Hlog, <- app_assoc. reflexivity.
      * right. exists e, (c :: pre), c', post. split; [reflexivity|].
        split; [reflexivity|]. rewrite Hlog, <- !app_assoc. reflexivity.
    + injection H as <- <-. right. exists e, [], c, rest. auto.
Qed.

Lemma reinstall_callAll (st : State World) :
  reinstallPuppeteer World helper st = callAll World helper reinstallCalls st.
Proof.
  unfold reinstallPuppeteer, reinstallCalls. cbn [callAll]. unfold bind.
  repeat match goal with
         | |- context [call World helper ?c ?s] =>
             destruct (call World helper c s) as [[[]| |] ?]; try reflexivity
         end.
Qed.

Lemma callAll_app (cs1 cs2 : list Call) (st : State World) :
  callAll World helper (cs1 ++ cs2) st
  = bind (callAll World helper cs1) (fun _ => callAll World helper cs2) st.
Proof.
  revert st. induction cs1 as [|c cs1 IH]; intros st; [reflexivity|].
  cbn [callAll app]. unfold bind.
  destruct (call World helper c st) as [[[]| |] st1]; try reflexivity.
  rewrite IH. reflexivity.
Qed.

(** [buildCommand] makes the calls of [buildCalls] and then exits. *)
Lemma buildCommand_calls (env : Env) (st : State World) :
  buildCommand World helper env st
  = bind (callAll World helper (buildCalls env)) (fun _ => exit 0%Z) st.
Proof.
  unfold buildCommand, buildCalls. unfold bind.
  rewrite callAll_app. unfold bind.
  assert (Hfirst :
    (if truthy (env !! "NETLIFY") then reinstallPuppeteer World helper else ret tt) st
    = callAll World helper (if truthy (env !! "NETLIFY") then reinstallCalls else []) st).
  { destruct (truthy (env !! "NETLIFY")); [apply reinstall_callAll | reflexivity]. }
  rewrite Hfirst.
  destruct (callAll World helper _ st) as [[[]| |] st1]; try reflexivity.
  destruct (strictEq (env !! "VERCEL") "1"); cbn [callAll]; unfold bind;
    repeat match goal with
           | |- context [call World helper ?c ?s] =>
               destruct (call World helper c s) as [[[]| |] ?]; try reflexivity
           end.
Qed.

(** X20: where [VERCEL] is not the string "1", the two versions of
    [buildCommand] do the same, whatever the helpers do. *)
Theorem build_versions_agree (env : Env) (st : State World) :
  env !! "VERCEL" <> Some "1" ->
  buildCommand World helper env st = buildCommandLocal World helper env st.
Proof.
  intros Hv. unfold buildCommand, buildCommandLocal.
  destruct (strictEq (env !! "VERCEL") "1") eqn:E;
    [apply strictEq_true in E; contradiction|].
  unfold bind.
  destruct ((if truthy (env !! "NETLIFY") then reinstallPuppeteer World helper
             else ret tt) st) as [[[]| |] st1]; try reflexivity.
  destruct (call World helper (ExecWithLocalServer "npm run generate") st1)
    as [[[]| |] st2]; reflexivity.
Qed.

(** X21: [buildCommand] never returns: it ends the process or throws.  It
    ends the process only with code 0 and only after all the calls of the run
    have been made, in order; when a helper throws, the calls stop with that
    one and the process is not ended by the command. *)
Theorem build_exit_after_all_calls (env : Env) (st st' : State World)
    (o : Outcome unit) :
  buildCommand World helper env st = (o, st') ->
  (o = Exited 0%Z /\ snd st' = snd st ++ buildCalls env)
  \/ (exists e pre c post,
        o = Thrown e /\ buildCalls env = pre ++ c :: post
        /\ snd st' = snd st ++ pre ++ [c]).
Proof.
  rewrite buildCommand_calls. unfold bind.
  destruct (callAll World helper (buildCalls env) st) as [o1 st1] eqn:Hall.
  apply callAll_outcome in Hall.
  destruct Hall as [[-> Hlog] | (e & pre & c & post & -> & Hcs & Hlog)].
  - intros [= <- <-]. left. auto.
  - intros [= <- <-]. right. exists e, pre, c, post. auto.
Qed.

(** X22: when [buildCommand] ends the process, the last call was the build
    of the site, and the assets were generated before it; with [NETLIFY] set,
    puppeteer was removed and added again before anything else. *)
Theorem build_order (env : Env) (st st' : State World) (code : Z) :
  buildCommand World helper env st = (Exited code, st') ->
  exists made,
    snd st' = snd st ++ made ++ [Exec "astro build"]
    /\ (In (ExecWithLocalServer "npm run generate") made
        \/ In (Exec startServerAndTest) made)
    /\ (truthy (env !! "NETLIFY") = true ->
        exists rest,
          made = [ LogInfo "Reinstalling puppeteer..."; Exec "npm rm puppeteer --no-save";
                   Exec "npm add puppeteer --no-save";
                   LogSuccess "Puppeteer reinstalled successfully" ] ++ rest).
Proof.
  rewrite buildCommand_calls. unfold bind.
  destruct (callAll World helper (buildCalls env) st) as [o1 st1] eqn:Hall.
  apply callAll_outcome in Hall.
  destruct Hall as [[-> Hlog] | (e & pre & c & post & -> & _)]; [|discriminate].
  intros [= _ <-]. rewrite Hlog. unfold buildCalls, reinstallCalls.
  destruct (truthy (env !! "NETLIFY")), (strictEq (env !! "VERCEL") "1").
  - eexists (_ :: _ :: _ :: _ :: _ :: _ :: _ :: [_]). split; [reflexivity|].
    split; [right; simpl; tauto|]. intros _. eexists; reflexivity.
  - eexists (_ :: _ :: _ :: _ :: [_]). split; [reflexivity|].
    split; [left; simpl; tauto|]. intros _. eexists; reflexivity.
  - eexists (_ :: _ :: _ :: [_]). split; [reflexivity|].
    split; [right; simpl; tauto|]. discriminate.
  - eexists [_]. split; [reflexivity|].
    split; [left; simpl; tauto|]. discriminate.
Qed.

(** X23: [generateCommand] runs the generators only after the check that
    the server is running has passed: when the check throws, no command has
    been executed and the process is not ended by the command; it ends the
    process, with code 0, only after both calls. *)
Theorem generate_after_server_check (st st' : State World) (o : Outcome unit) :
  generateCommand World helper st = (o, st') ->
  (forall e w, helper AssertServerIsRunning (fst st) = (Js.Throw e, w) ->
     o = Thrown e /\ st' = (w, snd st ++ [AssertServerIsRunning]))
  /\ (forall code, o = Exited code ->
        code = 0%Z
        /\ snd st' = snd st ++ [AssertServerIsRunning; Exec concurrentlyGenerate])
  /\ (forall v, o <> Returned v).
Proof.
  unfold generateCommand, bind, exit, call at 1.
  destruct (helper AssertServerIsRunning (fst st)) as [[[]|e1] w1] eqn:H1.
  - unfold call. cbn [fst snd].
    destruct (helper (Exec concurrentlyGenerate) w1) as [o2 w2] eqn:H2.
    destruct o2 as [[]|e2]; intros [= <- <-].
    + split; [intros e w [=]|]. split; [|discriminate].
      intros code [= <-]. split; [reflexivity|]. cbn [snd].
      rewrite <- app_assoc. reflexivity.
    + split; [intros e w [=]|]. split; discriminate.
  - intros [= <- <-]. split; [|split; discriminate].
    intros e w [= <- <-]. auto.
Qed.

End CliExtras.

Lemma build_versions_agree_witness :
  Cli.buildCommand nat CliSamples.succeed (<["NETLIFY" := "true"]> ∅) (O, [])
  = Cli.buildCommandLocal nat CliSamples.succeed (<["NETLIFY" := "true"]> ∅) (O, []).
Proof.
  apply (build_versions_agree nat CliSamples.succeed (<["NETLIFY" := "true"]> ∅) (O, [])).
  discriminate.
Defined.

Lemma build_exit_after_all_calls_witness :
  (@Process.Exited unit 0%Z = Process.Exited 0%Z
   /\ snd (9%nat, Cli.buildCalls (<["VERCEL" := "1"]> (<["NETLIFY" := "true"]> ∅)))
      = snd (O, @nil Cli.Call)
        ++ Cli.buildCalls (<["VERCEL" := "1"]> (<["NETLIFY" := "true"]> ∅)))
  \/ (exists e pre c post,
        @Process.Exited unit 0%Z = Process.Thrown e
        /\ Cli.buildCalls (<["VERCEL" := "1"]> (<["NETLIFY" := "true"]> ∅))
           = pre ++ c :: post
        /\ snd (9%nat, Cli.buildCalls (<["VERCEL" := "1"]> (<["NETLIFY" := "true"]> ∅)))
           = snd (O, @nil Cli.Call) ++ pre ++ [c]).
Proof.
  apply (build_exit_after_all_calls nat CliSamples.succeed
           (<["VERCEL" := "1"]> (<["NETLIFY" := "true"]> ∅)) (O, [])).
  vm_compute. reflexivity.
Defined.

Lemma build_order_witness :
  exists made,
    snd (2%nat, [Cli.ExecWithLocalServer "npm run generate"; Cli.Exec "astro build"])
    = snd (O, @nil Cli.Call) ++ made ++ [Cli.Exec "astro build"]
    /\ (In (Cli.ExecWithLocalServer "npm run generate") made
        \/ In (Cli.Exec Cli.startServerAndTest) made)
    /\ (Process.truthy ((∅ : Process.Env) !! "NETLIFY") = true ->
        exists rest,
          made = [ Cli.LogInfo "Reinstalling puppeteer...";
                   Cli.Exec "npm rm puppeteer --no-save";
                   Cli.Exec "npm add puppeteer --no-save";
                   Cli.LogSuccess "Puppeteer reinstalled successfully" ] ++ rest).
Proof.
  apply (build_order nat CliSamples.succeed ∅ (O, []) _ 0%Z).
  vm_compute. reflexivity.
Defined.

Lemma generate_after_server_check_witness :
  @Process.Thrown unit (Js.Error "Server is not running")
  = Process.Thrown (Js.Error "Server is not running")
  /\ (1%nat, [Cli.AssertServerIsRunning])
     = (1%nat, snd (O, @nil Cli.Call) ++ [Cli.AssertServerIsRunning]).
Proof.
  apply (proj1 (generate_after_server_check nat CliSamples.noServer (O, [])
                  (1%nat, [Cli.AssertServerIsRunning])
                  (Process.Thrown (Js.Error "Server is not running")) eq_refl)
           (Js.Error "Server is not running") 1%nat).
  reflexivity.
Defined.
